(** * Maintenance scripts of the model pipeline: a shallow embedding

    This development embeds three Python scripts:

    - [scripts/restore_fp32_onnx.py]: widening of every FLOAT16 tensor of an
      ONNX graph to FLOAT ([convert_fp16_to_fp32] and its batch driver);
    - [scripts/verify_model_chain.py]: the audit that reconciles the model
      identifiers of the UI, the copy manifest and the files on disk;
    - [scripts/standardize_restoration_models.py]: the cleanup of the
      restoration directory.

    [numpy] and [onnx] are libraries: the buffer decoding, the float16 to
    float32 cast and the protobuf messages are modelled here, the cast on
    bit patterns with the IEEE-754 reading of both formats next to it.

    Protobuf messages are records that hold the fields the scripts read or
    write (and a few that they never touch, so that frame properties say
    something); Python exceptions are values of an error monad; the
    dictionary of the audit and the file system of the driver are [gmap]s. *)

From Stdlib Require Import ZArith QArith Qpower Lia List Bool Ascii String.
From Stdlib.Strings Require Import Byte.
From stdpp Require Import base option list strings gmap pretty.

Close Scope Q_scope.
Open Scope Z_scope.

(* ===================================================================== *)
(** * Exceptions *)
(* ===================================================================== *)

(** The only exception the embedded code can raise by itself is the
    [ValueError] of [np.frombuffer] ("buffer size must be a multiple of
    element size"). *)
Inductive exn := ValueError.

Inductive result (A : Type) : Type :=
| Ok (a : A)
| Raise (e : exn).
Arguments Ok {A} a.
Arguments Raise {A} e.

Definition bind {A B} (r : result A) (k : A -> result B) : result B :=
  match r with
  | Ok a => k a
  | Raise e => Raise e
  end.

Notation "'let*' x ':=' r 'in' k" := (bind r (fun x => k))
  (at level 10, x name, r at level 100, k at level 200).

(** A Python [for x in xs: body] whose body may raise: the elements are
    visited from left to right and the first exception ends the loop. *)
Fixpoint for_each {A} (body : A -> result A) (xs : list A) : result (list A) :=
  match xs with
  | [] => Ok []
  | x :: rest =>
      let* x' := body x in
      let* rest' := for_each body rest in
      Ok (x' :: rest')
  end.

(* ===================================================================== *)
(** * Bytes and machine words *)
(* ===================================================================== *)

Definition byte_to_Z (b : byte) : Z := Z.of_N (Byte.to_N b).

Definition byte_of_Z (z : Z) : byte :=
  match Byte.of_N (Z.to_N (z mod 256)) with
  | Some b => b
  | None => x00
  end.

(** [np.frombuffer(raw, dtype=np.float16)] on a little-endian host: the
    buffer is cut into 2-byte elements, low byte first.  The elements are
    kept as their 16-bit patterns.  A buffer whose size is not a multiple
    of the element size is refused with [ValueError]. *)
Fixpoint halves_of_bytes (bs : list byte) : list Z :=
  match bs with
  | b0 :: b1 :: rest => (byte_to_Z b0 + 256 * byte_to_Z b1) :: halves_of_bytes rest
  | _ => []
  end.

Definition np_frombuffer_float16 (raw : list byte) : result (list Z) :=
  if Z.of_nat (length raw) mod 2 =? 0 then Ok (halves_of_bytes raw)
  else Raise ValueError.

(** [ndarray.tobytes()] of a float32 array on a little-endian host. *)
Definition single_to_bytes (w : Z) : list byte :=
  [ byte_of_Z w; byte_of_Z (Z.shiftr w 8);
    byte_of_Z (Z.shiftr w 16); byte_of_Z (Z.shiftr w 24) ].

Definition tobytes_float32 (ws : list Z) : list byte :=
  concat (map single_to_bytes ws).

(** Reading a float32 buffer back, used to state what the new payload
    holds. *)
Fixpoint singles_of_bytes (bs : list byte) : list Z :=
  match bs with
  | b0 :: b1 :: b2 :: b3 :: rest =>
      (byte_to_Z b0 + 256 * byte_to_Z b1
       + 65536 * byte_to_Z b2 + 16777216 * byte_to_Z b3) :: singles_of_bytes rest
  | _ => []
  end.

(* ===================================================================== *)
(** * IEEE-754 binary16 and binary32 *)
(* ===================================================================== *)

(** The value a bit pattern denotes.  A finite value is kept as sign,
    integer significand and binary exponent: [FFinite s m e] is
    (-1)^s * m * 2^e. *)
Inductive fp_value :=
| FNaN
| FInf (neg : bool)
| FFinite (neg : bool) (m : Z) (e : Z).

(** Decoding for a format of [ebits] exponent bits and [mbits] fraction
    bits (IEEE 754-2008, 3.4). *)
Definition ieee_value (ebits mbits : Z) (bits : Z) : fp_value :=
  let s := Z.testbit bits (ebits + mbits) in
  let e := Z.land (Z.shiftr bits mbits) (Z.ones ebits) in
  let m := Z.land bits (Z.ones mbits) in
  let bias := 2 ^ (ebits - 1) - 1 in
  if e =? Z.ones ebits then (if m =? 0 then FInf s else FNaN)
  else if e =? 0 then FFinite s m (1 - bias - mbits)
  else FFinite s (2 ^ mbits + m) (e - bias - mbits).

Definition half_value : Z -> fp_value := ieee_value 5 10.
Definition single_value : Z -> fp_value := ieee_value 8 23.

(** The rational number a finite value stands for. *)
Definition finite_to_Q (neg : bool) (m e : Z) : Q :=
  ((if neg then (-1) else 1) * inject_Z m * Qpower 2 e)%Q.

(** Two patterns denote the same datum: both NaN, the same infinity, or
    finite values of the same sign (so -0 and +0 are told apart) and the
    same rational. *)
Definition same_value (v w : fp_value) : Prop :=
  match v, w with
  | FNaN, FNaN => True
  | FInf s, FInf s' => s = s'
  | FFinite s m e, FFinite s' m' e' =>
      s = s' /\ (finite_to_Q s m e == finite_to_Q s' m' e')%Q
  | _, _ => False
  end.

(** The same comparison on integers only: both significands are brought
    to the smaller of the two exponents. *)
Definition same_valueb (v w : fp_value) : bool :=
  match v, w with
  | FNaN, FNaN => true
  | FInf s, FInf s' => Bool.eqb s s'
  | FFinite s m e, FFinite s' m' e' =>
      let k := Z.min e e' in
      Bool.eqb s s' && (m * 2 ^ (e - k) =? m' * 2 ^ (e' - k))
  | _, _ => false
  end.

(** [ndarray.astype(np.float32)] on one float16 element: the IEEE widening
    conversion on bit patterns.  Zeros keep their sign; a subnormal half
    becomes a normal single (its leading bit, at position [Z.log2 m],
    becomes the hidden bit); a normal half has its exponent rebiased by
    127 - 15 and its fraction moved up 13 bits; infinities and NaNs keep
    the all-ones exponent, a NaN its (shifted) payload. *)
Definition half_to_single (h : Z) : Z :=
  let f_sgn := Z.shiftl (Z.land h 0x8000) 16 in
  let h_exp := Z.land (Z.shiftr h 10) 0x1f in
  let h_sig := Z.land h 0x3ff in
  if h_exp =? 0 then
    if h_sig =? 0 then f_sgn
    else
      let k := Z.log2 h_sig in
      let f_exp := Z.shiftl (127 - 15 - 9 + k) 23 in
      let f_sig := Z.shiftl (h_sig - 2 ^ k) (23 - k) in
      f_sgn + f_exp + f_sig
  else if h_exp =? 0x1f then
    f_sgn + 0x7f800000 + Z.shiftl h_sig 13
  else
    f_sgn + Z.shiftl (h_exp + (127 - 15)) 23 + Z.shiftl h_sig 13.

Definition astype_float32 (data : list Z) : list Z := map half_to_single data.

(** A bounded universal quantifier on the [n]-bit patterns, used to check
    a property of all 65536 half-precision patterns by evaluation. *)
Fixpoint forall_bits (n : nat) (P : Z -> bool) : bool :=
  match n with
  | O => P 0
  | S n' => forall_bits n' (fun x => P (2 * x)) && forall_bits n' (fun x => P (2 * x + 1))
  end.

Definition widening_exactb (h : Z) : bool :=
  same_valueb (half_value h) (single_value (half_to_single h))
  && (0 <=? half_to_single h) && (half_to_single h <? 2 ^ 32).

(* ===================================================================== *)
(** * The ONNX messages *)
(* ===================================================================== *)

(** The messages of [onnx.proto] with the fields the script reads or
    writes, and some it leaves alone.  Protobuf gives every message its own
    name space; here the fields called [name] carry the message as a
    prefix, and the fields [type], [i], [f], [s], [t], [ints], [tensors] of
    an attribute are [attr_type], [attr_i], ... *)

(** [TensorProto.FLOAT] and [TensorProto.FLOAT16]. *)
Definition FLOAT : Z := 1.
Definition FLOAT16 : Z := 10.

Record TensorProto := mkTensor {
  tensor_name : string;
  dims : list Z;
  data_type : Z;
  raw_data : list byte;
  int32_data : list Z
}.

(** A declared input, output or intermediate value;
    [elem_type] is [type.tensor_type.elem_type]. *)
Record ValueInfoProto := mkValueInfo {
  vi_name : string;
  elem_type : Z;
  shape : list Z
}.

(** [AttributeProto.AttributeType]. *)
Inductive AttributeType :=
| UNDEFINED | AT_FLOAT | INT | STRING | TENSOR
| FLOATS | INTS | STRINGS | TENSORS.

Record AttributeProto := mkAttribute {
  attr_name : string;
  attr_type : AttributeType;
  attr_f : Z;
  attr_i : Z;
  attr_s : list byte;
  attr_t : TensorProto;
  attr_floats : list Z;
  attr_ints : list Z;
  attr_strings : list (list byte);
  attr_tensors : list TensorProto
}.

Record NodeProto := mkNode {
  node_name : string;
  op_type : string;
  node_input : list string;
  node_output : list string;
  attribute : list AttributeProto
}.

Record GraphProto := mkGraph {
  graph_name : string;
  node : list NodeProto;
  initializer : list TensorProto;
  input : list ValueInfoProto;
  output : list ValueInfoProto;
  value_info : list ValueInfoProto
}.

Record ModelProto := mkModel {
  ir_version : Z;
  producer_name : string;
  graph : GraphProto
}.

(** Field assignments. *)
Definition set_raw_data (bs : list byte) (t : TensorProto) : TensorProto :=
  mkTensor (tensor_name t) (dims t) (data_type t) bs (int32_data t).
Definition set_data_type (ty : Z) (t : TensorProto) : TensorProto :=
  mkTensor (tensor_name t) (dims t) ty (raw_data t) (int32_data t).
Definition set_elem_type (ty : Z) (v : ValueInfoProto) : ValueInfoProto :=
  mkValueInfo (vi_name v) ty (shape v).
Definition set_attr_i (n : Z) (a : AttributeProto) : AttributeProto :=
  mkAttribute (attr_name a) (attr_type a) (attr_f a) n (attr_s a) (attr_t a)
              (attr_floats a) (attr_ints a) (attr_strings a) (attr_tensors a).
Definition set_attr_t (t : TensorProto) (a : AttributeProto) : AttributeProto :=
  mkAttribute (attr_name a) (attr_type a) (attr_f a) (attr_i a) (attr_s a) t
              (attr_floats a) (attr_ints a) (attr_strings a) (attr_tensors a).
Definition set_attribute (attrs : list AttributeProto) (n : NodeProto) : NodeProto :=
  mkNode (node_name n) (op_type n) (node_input n) (node_output n) attrs.
Definition set_graph (g : GraphProto) (m : ModelProto) : ModelProto :=
  mkModel (ir_version m) (producer_name m) g.

(* ===================================================================== *)
(** * [restore_fp32_onnx.py]: the rewrite of a graph *)
(* ===================================================================== *)

(** Lines 35-51 and, with the same body, lines 81-87: a FLOAT16 tensor with
    a non-empty [raw_data] is decoded, cast and stored back as FLOAT; one
    with an empty [raw_data] falls in the [else: pass] branch. *)
Definition convert_tensor (tensor : TensorProto) : result TensorProto :=
  if data_type tensor =? FLOAT16 then
    match raw_data tensor with
    | [] => Ok tensor
    | _ :: _ =>
        let* data := np_frombuffer_float16 (raw_data tensor) in
        let data_f32 := astype_float32 data in
        Ok (set_data_type FLOAT (set_raw_data (tobytes_float32 data_f32) tensor))
    end
  else Ok tensor.

(** What the [if tensor.raw_data:] branch stores. *)
Definition widen (tensor : TensorProto) : TensorProto :=
  set_data_type FLOAT
    (set_raw_data (tobytes_float32 (astype_float32 (halves_of_bytes (raw_data tensor)))) tensor).

(** Lines 54-67: the three loops over [graph.input], [graph.output] and
    [graph.value_info] have this body. *)
Definition convert_value_info (v : ValueInfoProto) : ValueInfoProto :=
  if elem_type v =? FLOAT16 then set_elem_type FLOAT v else v.

(** Lines 73-75, the body of the loop over the attributes of a Cast. *)
Definition retarget_cast (attr : AttributeProto) : AttributeProto :=
  if (attr_name attr =? "to")%string && (attr_i attr =? FLOAT16)
  then set_attr_i FLOAT attr else attr.

(** Lines 78-87, the body of the second loop over the attributes. *)
Definition convert_attribute (attr : AttributeProto) : result AttributeProto :=
  match attr_type attr with
  | TENSOR =>
      let* t := convert_tensor (attr_t attr) in
      Ok (set_attr_t t attr)
  | _ => Ok attr
  end.

(** Lines 70-87, the body of the loop over [graph.node]. *)
Definition convert_node (n : NodeProto) : result NodeProto :=
  let attrs :=
    if (op_type n =? "Cast")%string then map retarget_cast (attribute n)
    else attribute n in
  let* attrs' := for_each convert_attribute attrs in
  Ok (set_attribute attrs' n).

(** The attribute the second loop of a node sees in place of [a]. *)
Definition after_cast_loop (n : NodeProto) (a : AttributeProto) : AttributeProto :=
  if (op_type n =? "Cast")%string then retarget_cast a else a.

(** Lines 31-87: the in-place rewrite of [model_fp16.graph].  An exception
    leaves the function, and the half-rewritten graph is dropped with it. *)
Definition convert_graph (g : GraphProto) : result GraphProto :=
  let* initializer' := for_each convert_tensor (initializer g) in
  let input' := map convert_value_info (input g) in
  let output' := map convert_value_info (output g) in
  let value_info' := map convert_value_info (value_info g) in
  let* node' := for_each convert_node (node g) in
  Ok (mkGraph (graph_name g) node' initializer' input' output' value_info').

(** ** Sample messages *)

(** A tensor whose protobuf fields are all at their default. *)
Definition empty_tensor : TensorProto := mkTensor "" [] 0 [] [].

(** One FLOAT16 element, 1.5 (pattern 0x3e00), stored low byte first. *)
Definition half_1_5 : TensorProto := mkTensor "w" [1] FLOAT16 [x00; x3e] [].

(** A FLOAT16 tensor of three elements kept in [int32_data], with an empty
    [raw_data]. *)
Definition half_in_int32 : TensorProto :=
  mkTensor "b" [3] FLOAT16 [] [0x3c00; 0x4000; 0x4200].

(** A FLOAT16 tensor whose [raw_data] has three bytes. *)
Definition half_odd : TensorProto := mkTensor "bad" [1] FLOAT16 [x00; x3e; x00] [].

Definition float_input : ValueInfoProto := mkValueInfo "x" FLOAT [1; 3].
Definition half_output : ValueInfoProto := mkValueInfo "y" FLOAT16 [1; 3].

Definition attr_int (name : string) (n : Z) : AttributeProto :=
  mkAttribute name INT 0 n [] empty_tensor [] [] [] [].
Definition attr_tensor (name : string) (t : TensorProto) : AttributeProto :=
  mkAttribute name TENSOR 0 0 [] t [] [] [] [].
Definition attr_tensor_list (name : string) (ts : list TensorProto) : AttributeProto :=
  mkAttribute name TENSORS 0 0 [] empty_tensor [] [] [] ts.

Definition cast_to_half : NodeProto :=
  mkNode "cast0" "Cast" ["x"] ["x16"] [attr_int "to" FLOAT16].
Definition constant_node (t : TensorProto) : NodeProto :=
  mkNode "const0" "Constant" [] ["c"] [attr_tensor "value" t].

Definition sample_graph : GraphProto :=
  mkGraph "g" [cast_to_half; constant_node half_1_5] [half_1_5; half_in_int32]
          [float_input] [half_output] [].

(* ===================================================================== *)
(** * Sites of a graph *)
(* ===================================================================== *)

(** The Type Declarations of a graph. *)
Definition type_declarations (g : GraphProto) : list ValueInfoProto :=
  input g ++ output g ++ value_info g.

(** The tensors an attribute embeds: the one of a TENSOR attribute, the
    elements of a TENSORS attribute. *)
Definition embedded_tensors (a : AttributeProto) : list TensorProto :=
  match attr_type a with
  | TENSOR => [attr_t a]
  | TENSORS => attr_tensors a
  | _ => []
  end.

(** Every TensorView reachable in a graph: the Constants and the tensors
    embedded in the attributes of its nodes. *)
Definition tensor_views (g : GraphProto) : list TensorProto :=
  initializer g ++ flat_map (fun n => flat_map embedded_tensors (attribute n)) (node g).

(** The tensor of a TENSOR attribute, none for the other kinds. *)
Definition single_tensor (a : AttributeProto) : list TensorProto :=
  match attr_type a with
  | TENSOR => [attr_t a]
  | _ => []
  end.

(** The tensors the rewrite looks at: the Constants and the tensor of
    every TENSOR attribute. *)
Definition visited_tensors (g : GraphProto) : list TensorProto :=
  initializer g ++ flat_map (fun n => flat_map single_tensor (attribute n)) (node g).

Definition is_half (t : TensorProto) : bool := data_type t =? FLOAT16.
Definition is_half_decl (v : ValueInfoProto) : bool := elem_type v =? FLOAT16.

(** No TensorView and no Type Declaration reachable in the graph is
    FLOAT16. *)
Definition no_half_anywhere (g : GraphProto) : bool :=
  forallb (fun t => negb (is_half t)) (tensor_views g)
  && forallb (fun v => negb (is_half_decl v)) (type_declarations g).

(** A FLOAT16 tensor whose byte length is not a multiple of 2. *)
Definition malformed_half (t : TensorProto) : bool :=
  is_half t && negb (Z.of_nat (length (raw_data t)) mod 2 =? 0).

(** The attribute of a Cast that names FLOAT16 as the target. *)
Definition is_cast_to_half (n : NodeProto) (a : AttributeProto) : bool :=
  (op_type n =? "Cast")%string && (attr_name a =? "to")%string && (attr_i a =? FLOAT16).

(** None of the places the rewrite may write to holds FLOAT16. *)
Definition half_sites_absent (g : GraphProto) : bool :=
  forallb (fun t => negb (is_half t)) (visited_tensors g)
  && forallb (fun v => negb (is_half_decl v)) (type_declarations g)
  && forallb (fun n => forallb (fun a => negb (is_cast_to_half n a)) (attribute n)) (node g).

(** ** What the rewrite leaves alone *)

Definition tensor_frame (t t' : TensorProto) : Prop :=
  tensor_name t' = tensor_name t /\ dims t' = dims t /\ int32_data t' = int32_data t
  /\ (is_half t = false -> t' = t).

Definition decl_frame (v v' : ValueInfoProto) : Prop :=
  vi_name v' = vi_name v /\ shape v' = shape v
  /\ (is_half_decl v = false -> v' = v).

Definition attr_frame (n : NodeProto) (a a' : AttributeProto) : Prop :=
  attr_name a' = attr_name a /\ attr_type a' = attr_type a
  /\ attr_f a' = attr_f a /\ attr_s a' = attr_s a
  /\ attr_floats a' = attr_floats a /\ attr_ints a' = attr_ints a
  /\ attr_strings a' = attr_strings a /\ attr_tensors a' = attr_tensors a
  /\ (is_cast_to_half n a = false -> attr_i a' = attr_i a)
  /\ tensor_frame (attr_t a) (attr_t a')
  /\ (is_cast_to_half n a = false ->
      forallb (fun t => negb (is_half t)) (single_tensor a) = true -> a' = a).

Definition node_frame (n n' : NodeProto) : Prop :=
  node_name n' = node_name n /\ op_type n' = op_type n
  /\ node_input n' = node_input n /\ node_output n' = node_output n
  /\ Forall2 (attr_frame n) (attribute n) (attribute n').

Definition graph_frame (g g' : GraphProto) : Prop :=
  graph_name g' = graph_name g
  /\ Forall2 tensor_frame (initializer g) (initializer g')
  /\ Forall2 decl_frame (input g) (input g')
  /\ Forall2 decl_frame (output g) (output g')
  /\ Forall2 decl_frame (value_info g) (value_info g')
  /\ Forall2 node_frame (node g) (node g').

(** ** Sample graphs *)

(** The rewrite of [sample_graph]. *)
Definition sample_graph_fp32 : GraphProto :=
  mkGraph "g"
    [ mkNode "cast0" "Cast" ["x"] ["x16"] [attr_int "to" FLOAT];
      constant_node (mkTensor "w" [1] FLOAT [x00; x00; xc0; x3f] []) ]
    [ mkTensor "w" [1] FLOAT [x00; x00; xc0; x3f] []; half_in_int32 ]
    [float_input] [mkValueInfo "y" FLOAT [1; 3]] [].

(** A graph whose one Constant is FLOAT16 with its data in [int32_data]. *)
Definition graph_half_in_int32 : GraphProto :=
  mkGraph "g" [] [half_in_int32] [float_input] [] [].

(** A graph whose only FLOAT16 tensor sits in a TENSORS attribute. *)
Definition graph_half_in_list : GraphProto :=
  mkGraph "g" [mkNode "n0" "SomeOp" ["x"] ["y"] [attr_tensor_list "values" [half_1_5]]]
          [] [float_input] [] [].

(** A graph whose only FLOAT16 tensor has three bytes and sits in a
    TENSORS attribute. *)
Definition graph_odd_in_list : GraphProto :=
  mkGraph "g" [mkNode "n0" "SomeOp" ["x"] ["y"] [attr_tensor_list "values" [half_odd]]]
          [] [float_input] [] [].

(** A graph with no FLOAT16 anywhere: a FLOAT Constant, an INT64 (7)
    Constant, and a Cast to FLOAT. *)
Definition graph_fp32 : GraphProto :=
  mkGraph "g"
    [ mkNode "cast0" "Cast" ["x"] ["x32"] [attr_int "to" FLOAT];
      constant_node (mkTensor "k" [1] 7 [x01; x00; x00; x00; x00; x00; x00; x00] []) ]
    [ mkTensor "w" [1] FLOAT [x00; x00; xc0; x3f] [] ]
    [float_input] [mkValueInfo "y" FLOAT [1; 3]] [].

(** A FLOAT16 tensor of no element: its [raw_data] has length 0. *)
Definition half_no_elements : TensorProto := mkTensor "e" [0] FLOAT16 [] [].

(** A graph whose one Constant is [half_no_elements]. *)
Definition graph_half_no_elements : GraphProto :=
  mkGraph "g" [] [half_no_elements] [float_input] [] [].

(** A graph with a three-byte FLOAT16 Constant. *)
Definition graph_odd_constant : GraphProto :=
  mkGraph "g" [] [half_1_5; half_odd] [float_input] [half_output] [].

(* ===================================================================== *)
(** * [restore_fp32_onnx.py]: files and the batch driver *)
(* ===================================================================== *)

(** What a path holds: something [onnx.load] refuses (with the text of its
    exception), or a serialised model. *)
Inductive file :=
| Unreadable (why : string)
| ModelFile (m : ModelProto).

Record world := mkWorld {
  fs : gmap string file;
  stdout : list string
}.

Definition print (line : string) (w : world) : world :=
  mkWorld (fs w) (stdout w ++ [line]).

Definition os_path_exists (w : world) (path : string) : bool :=
  bool_decide (is_Some (fs w !! path)).

Definition os_path_join (a b : string) : string := a +:+ "/" +:+ b.

(** [onnx.load]: the model, or the text of the exception. *)
Definition onnx_load (w : world) (path : string) : string + ModelProto :=
  match fs w !! path with
  | Some (ModelFile m) => inr m
  | Some (Unreadable why) => inl why
  | None => inl "No such file or directory"%string
  end.

Definition onnx_save (m : ModelProto) (path : string) (w : world) : world :=
  mkWorld (<[path := ModelFile m]> (fs w)) (stdout w).

(** Lines 6-91.  Only [onnx.load] sits inside the [try]; the rewrite and
    [onnx.save] run after it, outside any handler. *)
Definition convert_fp16_to_fp32 (input_path output_path : string) (w : world)
  : world * result bool :=
  let w := print ("Converting " +:+ input_path +:+ " to FP32...") w in
  match onnx_load w input_path with
  | inl e => (print ("Error loading " +:+ input_path +:+ ": " +:+ e) w, Ok false)
  | inr model_fp16 =>
      match convert_graph (graph model_fp16) with
      | Raise e => (w, Raise e)
      | Ok graph' =>
          let w := onnx_save (set_graph graph' model_fp16) output_path w in
          (print ("Saved FP32 model to " +:+ output_path) w, Ok true)
      end
  end.

Definition base_dir : string := "local_models/restoration".

Definition models : list (string * string) :=
  [ ("ffanet-dehazing_indoor-fp16.onnx", "ffanet-dehazing_indoor-fp32.onnx");
    ("ffanet-dehazing_outdoor-fp16.onnx", "ffanet-dehazing_outdoor-fp32.onnx");
    ("mirnet_v2-lowlight-fp16.onnx", "mirnet_v2-lowlight-fp32.onnx");
    ("mprnet-deraining-fp16.onnx", "mprnet-deraining-fp32.onnx") ]%string.

(** Lines 102-109: the loop of [__main__], over any list of pairs.  The
    value returned by [convert_fp16_to_fp32] is not looked at; an exception
    that escapes it ends the loop and the process. *)
Fixpoint main_loop (pairs : list (string * string)) (w : world) : world * result unit :=
  match pairs with
  | [] => (w, Ok tt)
  | (inp, outp) :: rest =>
      let inp_full := os_path_join base_dir inp in
      let outp_full := os_path_join base_dir outp in
      if os_path_exists w inp_full then
        match convert_fp16_to_fp32 inp_full outp_full w with
        | (w', Ok _) => main_loop rest w'
        | (w', Raise e) => (w', Raise e)
        end
      else main_loop rest (print ("Skipping " +:+ inp +:+ " (not found)") w)
  end.

Definition main (w : world) : world * result unit := main_loop models w.

(** ** Sample worlds *)

Definition model_of (g : GraphProto) : ModelProto := mkModel 8 "pytorch" g.

(** Every model in the file system is one the rewrite accepts. *)
Definition convertible (w : world) : Prop :=
  forall p m, fs w !! p = Some (ModelFile m) ->
              exists g', convert_graph (graph m) = Ok g'.

(** The first model of the list holds a three-byte FLOAT16 Constant, the
    second one is fine, the others are absent. *)
Definition world_bad_first : world :=
  mkWorld
    (<["local_models/restoration/ffanet-dehazing_indoor-fp16.onnx"%string
         := ModelFile (model_of graph_odd_constant)]>
     (<["local_models/restoration/ffanet-dehazing_outdoor-fp16.onnx"%string
         := ModelFile (model_of sample_graph)]> ∅))
    [].

(** The first model of the list cannot be loaded, the second one is
    absent, the third one is fine. *)
Definition world_unreadable_first : world :=
  mkWorld
    (<["local_models/restoration/ffanet-dehazing_indoor-fp16.onnx"%string
         := Unreadable "Error parsing message"]>
     (<["local_models/restoration/mirnet_v2-lowlight-fp16.onnx"%string
         := ModelFile (model_of sample_graph)]> ∅))
    [].

(* ===================================================================== *)
(** * [verify_model_chain.py]: text helpers *)
(* ===================================================================== *)

(** Python text is modelled by [string]; a character is a code point
    below 256. *)

(** [sub in s]. *)
Fixpoint contains (sub s : string) : bool :=
  String.prefix sub s ||
  match s with
  | EmptyString => false
  | String _ s' => contains sub s'
  end.

(** [s.split(sep)[0]]: the text before the first [sep], all of [s] when
    there is none. *)
Fixpoint text_before (sep s : string) : string :=
  match s with
  | EmptyString => EmptyString
  | String c s' => if String.prefix sep s then EmptyString else String c (text_before sep s')
  end.

Fixpoint drop_chars (n : nat) (s : string) : string :=
  match n, s with
  | S n', String _ s' => drop_chars n' s'
  | _, _ => s
  end.

(** The regular-expression class [\s] of a [str] pattern, on the code
    points below 256. *)
Definition is_space (c : ascii) : bool :=
  let n := N_of_ascii c in
  (((9 <=? n) && (n <=? 13)) || ((28 <=? n) && (n <=? 32)) || (n =? 133) || (n =? 160))%N.

Definition is_quote (c : ascii) : bool := Ascii.eqb c "'"%char.

(** [\s*] *)
Fixpoint skip_spaces (s : string) : string :=
  match s with
  | String c s' => if is_space c then skip_spaces s' else s
  | EmptyString => EmptyString
  end.

(** [([^']+)]: the longest run of characters other than the quote, and
    what follows it; no match on an empty run. *)
Fixpoint span_unquoted (s : string) : string * string :=
  match s with
  | String c s' =>
      if is_quote c then (EmptyString, s)
      else let '(run, rest) := span_unquoted s' in (String c run, rest)
  | EmptyString => (EmptyString, EmptyString)
  end.

Definition group_unquoted (s : string) : option (string * string) :=
  let '(run, rest) := span_unquoted s in
  match run with
  | EmptyString => None
  | _ => Some (run, rest)
  end.

(** A literal of the pattern. *)
Definition literal (lit s : string) : option string :=
  if String.prefix lit s then Some (drop_chars (String.length lit) s) else None.

(** The pattern [src:\s*'([^']+)',\s*dest:\s*'([^']+)'] tried at the head
    of [s].  Every greedy piece is followed by a character it cannot
    itself consume, so there is one way to match and backtracking never
    finds another. *)
Definition match_here (s : string) : option (string * string) :=
  s ← literal "src:" s;
  s ← literal "'" (skip_spaces s);
  '(src, s) ← group_unquoted s;
  s ← literal "'," s;
  s ← literal "dest:" (skip_spaces s);
  s ← literal "'" (skip_spaces s);
  '(dest, s) ← group_unquoted s;
  _ ← literal "'" s;
  Some (src, dest).

(** [re.search(pattern, line)] then [m.groups()]: the leftmost match. *)
Fixpoint re_search (line : string) : option (string * string) :=
  match match_here line with
  | Some groups => Some groups
  | None =>
      match line with
      | EmptyString => None
      | String _ line' => re_search line'
      end
  end.

(** [os.path.basename] (POSIX): what follows the last slash. *)
Fixpoint basename_from (seen p : string) : string :=
  match p with
  | EmptyString => seen
  | String c p' =>
      if Ascii.eqb c "/"%char then basename_from EmptyString p'
      else basename_from (seen +:+ String c EmptyString) p'
  end.

Definition basename (p : string) : string := basename_from EmptyString p.

(** [s.replace(old, new)] for a non-empty [old]: occurrences are found
    from the left and do not overlap; [skip] counts the characters of an
    occurrence still to be passed over. *)
Fixpoint replace_from (old new : string) (skip : nat) (s : string) : string :=
  match s with
  | EmptyString => EmptyString
  | String c s' =>
      match skip with
      | S k => replace_from old new k s'
      | O =>
          if String.prefix old s
          then new +:+ replace_from old new (String.length old - 1) s'
          else String c (replace_from old new O s')
      end
  end.

Definition replace (old new s : string) : string := replace_from old new O s.

(* ===================================================================== *)
(** * [verify_model_chain.py]: the manifest and the reconciliation *)
(* ===================================================================== *)

(** Lines 23-34, the body of the loop over the lines of the manifest. *)
Definition scan_line (mappings : gmap string string) (line : string) : gmap string string :=
  if contains "src:" line && contains "dest:" line
     && negb (contains "//" (text_before "src:" line))
  then
    match re_search line with
    | Some (src, dest) =>
        let basename := basename dest in
        let model_id := replace ".onnx" "" basename in
        <[model_id := src]> mappings
    | None => mappings
    end
  else mappings.

(** Lines 19-34. *)
Definition extract_mappings (lines : list string) : gmap string string :=
  fold_left scan_line lines ∅.

(** Lines 45-54, the body of the verification loop, on the two lists it
    appends to. *)
Definition verify_step (mappings : gmap string string) (exists_on_disk : string -> bool)
    (acc : list string * list (string * string)) (uid : string)
  : list string * list (string * string) :=
  let '(missing_in_copy, missing_on_disk) := acc in
  match mappings !! uid with
  | None => (missing_in_copy ++ [uid], missing_on_disk)
  | Some src_path =>
      if negb (exists_on_disk src_path)
      then (missing_in_copy, missing_on_disk ++ [(uid, src_path)])
      else (missing_in_copy, missing_on_disk)
  end.

(** Lines 42-54: [missing_in_copy] and [missing_on_disk]. *)
Definition verification (ui_ids : list string) (mappings : gmap string string)
    (exists_on_disk : string -> bool) : list string * list (string * string) :=
  fold_left (verify_step mappings exists_on_disk) ui_ids ([], []).

(** ** The manifest rule in the words of the specification *)

(** [s] without [suffix] when it ends with it, [s] itself otherwise. *)
Fixpoint strip_suffix (suffix s : string) : string :=
  if String.eqb s suffix then EmptyString
  else match s with
       | EmptyString => EmptyString
       | String c s' => String c (strip_suffix suffix s')
       end.

(** No dot in a file name. *)
Fixpoint no_dot (s : string) : bool :=
  match s with
  | EmptyString => true
  | String c s' => negb (Ascii.eqb c "."%char) && no_dot s'
  end.

(** What a line of the manifest adds to the Mapping, if anything: the
    guard and the pattern of [scan_line], and the key it computes. *)
Definition manifest_entry (line : string) : option (string * string) :=
  if contains "src:" line && contains "dest:" line
     && negb (contains "//" (text_before "src:" line))
  then
    match re_search line with
    | Some (src, dest) => Some (replace ".onnx" "" (basename dest), src)
    | None => None
    end
  else None.

(** ** Sample manifests *)

Definition manifest_two_entries : list string :=
  [ "  { src: 'local_models/restoration/old/m.onnx', dest: 'public/models/restoration/m.onnx' },";
    "  // { src: 'local_models/restoration/off/m.onnx', dest: 'public/models/restoration/m.onnx' },";
    "  { src: 'local_models/restoration/new/m.onnx', dest: 'public/models/restoration/m.onnx' }," ]%string.

(** An ONNX model that keeps its weights in an external data file, copied
    next to it. *)
Definition manifest_external_data : list string :=
  [ "  { src: 'local_models/restoration/nafnet.onnx_data', dest: 'public/models/restoration/nafnet.onnx_data' }," ]%string.

(* ===================================================================== *)
(** * Reading a converted payload back *)
(* ===================================================================== *)

(** The half-precision pattern of a single-precision pattern that is the
    image of one: sign, exponent rebiased by 15 - 127 and the ten leading
    fraction bits; for the images of subnormals (biased exponents 103 to
    112) the hidden bit is put back and the significand moved down. *)
Definition half_of_widened (f : Z) : Z :=
  let sgn := Z.shiftl (Z.shiftr f 31) 15 in
  let e := Z.land (Z.shiftr f 23) 0xff in
  let m := Z.land f 0x7fffff in
  if e =? 0 then sgn
  else if e =? 0xff then sgn + 0x7c00 + Z.shiftr m 13
  else if 113 <=? e then sgn + Z.shiftl (e - 112) 10 + Z.shiftr m 13
  else sgn + Z.shiftr (0x800000 + m) (126 - e).

(** A float16 array as bytes, low byte first. *)
Definition half_to_bytes (h : Z) : list byte := [byte_of_Z h; byte_of_Z (Z.shiftr h 8)].

Definition tobytes_float16 (hs : list Z) : list byte := concat (map half_to_bytes hs).

(* ===================================================================== *)
(** * [verify_model_chain.py]: the rest of the script *)
(* ===================================================================== *)

(** Every character of a text passes a test. *)
Fixpoint all_chars (P : ascii -> bool) (s : string) : bool :=
  match s with
  | EmptyString => true
  | String c s' => P c && all_chars P s'
  end.

Definition not_quote (c : ascii) : bool := negb (is_quote c).
Definition not_char (x c : ascii) : bool := negb (Ascii.eqb c x).

(** A text the pattern of the manifest matches, with its three runs of
    white space and its two groups, followed by [post]. *)
Definition entry_text (ws1 src ws2 ws3 dest post : string) : string :=
  "src:" +:+ ws1 +:+ "'" +:+ src +:+ "'," +:+ ws2 +:+ "dest:" +:+ ws3
  +:+ "'" +:+ dest +:+ "'" +:+ post.

(** The pattern [id:\s*'([^']+)'] of line 10 tried at the head of [s]: the
    group and the number of characters matched. *)
Definition match_id_here (s : string) : option (string * nat) :=
  r ← literal "id:" s;
  r ← literal "'" (skip_spaces r);
  '(uid, r) ← group_unquoted r;
  r ← literal "'" r;
  Some (uid, (String.length s - String.length r)%nat).

(** [re.findall(pattern, content)]: the groups of the matches, found from
    the left and not overlapping; [skip] counts the characters of the last
    match still to be passed over. *)
Fixpoint findall_from (skip : nat) (content : string) : list string :=
  match content with
  | EmptyString => []
  | String _ rest =>
      match skip with
      | S k => findall_from k rest
      | O =>
          match match_id_here content with
          | Some (uid, n) => uid :: findall_from (n - 1) rest
          | None => findall_from O rest
          end
      end
  end.

(** Lines 6-11: [ui_ids]. *)
Definition findall_ids (content : string) : list string := findall_from O content.

(** A text the pattern of line 10 matches, followed by [post]. *)
Definition id_text (ws uid post : string) : string :=
  "id:" +:+ ws +:+ "'" +:+ uid +:+ "'" +:+ post.

Definition newline : ascii := "010"%char.

(** [f.readlines()] on the text of a file: the lines, each with its
    newline, and a last line without one when the text does not end with
    a newline.  [cur] is the line being read. *)
Fixpoint readlines_from (cur content : string) : list string :=
  match content with
  | EmptyString => match cur with EmptyString => [] | _ => [cur] end
  | String c rest =>
      if Ascii.eqb c newline then (cur +:+ String c EmptyString) :: readlines_from EmptyString rest
      else readlines_from (cur +:+ String c EmptyString) rest
  end.

Definition readlines (content : string) : list string := readlines_from EmptyString content.

(** A Python [dict] keeps its keys in the order of their first insertion;
    [d[k] = v] on a key already there changes the value in place. *)
Fixpoint dict_set (k v : string) (items : list (string * string)) : list (string * string) :=
  match items with
  | [] => [(k, v)]
  | (k', v') :: rest =>
      if String.eqb k' k then (k', v) :: rest else (k', v') :: dict_set k v rest
  end.

(** Lines 19-34 again, with the dictionary as [mappings.items()] lists it. *)
Definition scan_line_items (items : list (string * string)) (line : string)
  : list (string * string) :=
  match manifest_entry line with
  | Some (model_id, src) => dict_set model_id src items
  | None => items
  end.

Definition mappings_items (lines : list string) : list (string * string) :=
  fold_left scan_line_items lines [].

(** [s.ljust(width)]: [s] padded with blanks on the right. *)
Fixpoint blanks (n : nat) : string :=
  match n with
  | O => EmptyString
  | S n' => String " " (blanks n')
  end.

Definition ljust (width : nat) (s : string) : string :=
  s +:+ blanks (width - String.length s).

(** Lines 56-68: the two sections of the verdict. *)
Definition ok_copy : string :=
  String newline "[OK] All UI IDs have a corresponding copy entry.".
Definition ok_disk : string :=
  String newline "[OK] All active models exist on disk.".

Definition report_missing_in_copy (missing_in_copy : list string) : list string :=
  match missing_in_copy with
  | [] => [ok_copy]
  | _ => String newline "[!] UI IDs missing from Copy Script (Config mismatch?):"
         :: map (fun m => " - " +:+ m) missing_in_copy
  end.

Definition report_missing_on_disk (missing_on_disk : list (string * string)) : list string :=
  match missing_on_disk with
  | [] => [ok_disk]
  | _ => String newline "[!] Active Models missing from Local Disk:"
         :: map (fun '(uid, src) => " - ID: " +:+ uid +:+ " refers to " +:+ src +:+ " (NOT FOUND)")
                missing_on_disk
  end.

(** The whole script: what it prints, one element per [print], given the
    text of the two files it opens and the presence test of the disk. *)
Definition verify_model_chain (card manifest : string) (exists_on_disk : string -> bool)
  : list string :=
  let ui_ids := findall_ids card in
  let lines := readlines manifest in
  let '(missing_in_copy, missing_on_disk) :=
    verification ui_ids (extract_mappings lines) exists_on_disk in
  ["UI Model IDs found: " +:+ pretty (length ui_ids)]
  ++ map (fun mid => " - " +:+ mid) ui_ids
  ++ [String newline "Copy Script Mappings found: " +:+ pretty (length (mappings_items lines))]
  ++ map (fun '(mid, src) => " - ID: " +:+ ljust 30 mid +:+ " -> SRC: " +:+ src)
         (mappings_items lines)
  ++ [String newline "--- Verification ---"]
  ++ report_missing_in_copy missing_in_copy
  ++ report_missing_on_disk missing_on_disk.

(* ===================================================================== *)
(** * [standardize_restoration_models.py] *)
(* ===================================================================== *)

(** What a name of the restoration directory is. *)
Inductive dir_entry := RegularFile | SubDirectory.

(** Lines 19-27. *)
Definition used_names : list string :=
  [ "mirnet_v2-lowlight-fp16.onnx";
    "mprnet-deraining-fp16.onnx";
    "nafnet-image-deblurringfp16.onnx";
    "nafnet-motion-deblurring-fp16.onnx";
    "nafnet-denoising-fp16.onnx";
    "ffanet-dehazing_indoor-fp16.onnx";
    "ffanet-dehazing_outdoor-fp16.onnx" ]%string.

(** [s.endswith(suffix)]. *)
Fixpoint endswith (s suffix : string) : bool :=
  String.eqb s suffix ||
  match s with
  | EmptyString => false
  | String _ s' => endswith s' suffix
  end.

Definition os_path_isdir (dir : gmap string dir_entry) (f : string) : bool :=
  match dir !! f with
  | Some SubDirectory => true
  | _ => false
  end.

(** [shutil.rmtree(f)] on a directory. *)
Definition shutil_rmtree (f : string) (dir : gmap string dir_entry) : gmap string dir_entry :=
  delete f dir.

(** [os.remove(f)]: removes a file; raises on a name that is not there
    or is a directory ([None]). *)
Definition os_remove (f : string) (dir : gmap string dir_entry)
  : option (gmap string dir_entry) :=
  match dir !! f with
  | Some RegularFile => Some (delete f dir)
  | _ => None
  end.

(** Lines 32-43, the body of the loop, on the directory and on what has
    been printed; [None] when an exception leaves it. *)
Definition cleanup_entry (st : gmap string dir_entry * list string) (f : string)
  : option (gmap string dir_entry * list string) :=
  let '(dir, out) := st in
  if os_path_isdir dir f then
    Some (shutil_rmtree f dir, out ++ ["Cleaning up directory: " +:+ f])
  else if endswith f ".onnx" then
    if bool_decide (f ∉ used_names) then
      dir' ← os_remove f dir;
      Some (dir', out ++ ["Removing junk/old model: " +:+ f])
    else Some (dir, out)
  else
    dir' ← os_remove f dir;
    Some (dir', out ++ ["Cleaning up non-onnx artifact: " +:+ f]).

(** Lines 31-43: the loop over [os.listdir(".")], the listing taken
    before the first removal. *)
Fixpoint cleanup_loop (listing : list string) (st : gmap string dir_entry * list string)
  : option (gmap string dir_entry * list string) :=
  match listing with
  | [] => Some st
  | f :: rest => st' ← cleanup_entry st f; cleanup_loop rest st'
  end.

(** Lines 10-43: [main], in the restoration directory [dir], with
    [listing] what [os.listdir] returns (the names of [dir], in the order
    the system gives them). *)
Definition standardize_main (listing : list string) (dir : gmap string dir_entry)
  : option (gmap string dir_entry * list string) :=
  cleanup_loop listing
    (dir, ["Maintaining " +:+ pretty (length used_names) +:+ " standardized models..."]).

(** What the cleanup leaves of an entry. *)
Definition survives (f : string) (e : option dir_entry) : option dir_entry :=
  match e with
  | Some RegularFile => if bool_decide (f ∈ used_names) then Some RegularFile else None
  | _ => None
  end.

(** A restoration directory: two models of the list, a converted model,
    a weight file and a directory. *)
Definition sample_dir : gmap string dir_entry :=
  <["mirnet_v2-lowlight-fp16.onnx"%string := RegularFile]>
  (<["mirnet_v2-lowlight-fp32.onnx"%string := RegularFile]>
  (<["mprnet-deraining-fp16.onnx"%string := RegularFile]>
  (<["weights.bin"%string := RegularFile]>
  (<["tmp"%string := SubDirectory]> ∅)))).

Definition sample_listing : list string :=
  [ "tmp"; "mirnet_v2-lowlight-fp32.onnx"; "weights.bin";
    "mirnet_v2-lowlight-fp16.onnx"; "mprnet-deraining-fp16.onnx" ]%string.

(* ===================================================================== *)
(** * Properties *)
(* ===================================================================== *)

Lemma forall_bits_sound n : forall P, forall_bits n P = true ->
  forall x, 0 <= x < 2 ^ Z.of_nat n -> P x = true.
Proof.
  induction n as [|n IH]; intros P HP x Hx.
  - simpl in *. assert (x = 0) by lia. by subst.
  - simpl in HP. apply andb_true_iff in HP as [H0 H1].
    rewrite Nat2Z.inj_succ, Z.pow_succ_r in Hx by lia.
    destruct (Z.even x) eqn:He.
    + apply Z.even_spec in He as [y ->].
      apply (IH _ H0 y). lia.
    + assert (Ho : Z.odd x = true) by (rewrite <- Z.negb_even, He; done).
      apply Z.odd_spec in Ho as [y ->].
      apply (IH _ H1 y). lia.
Qed.

Lemma finite_rescale (m e k : Z) : k <= e ->
  (inject_Z m * Qpower 2 e == inject_Z (m * 2 ^ (e - k)) * Qpower 2 k)%Q.
Proof.
  intros Hk.
  replace e with ((e - k) + k) at 1 by lia.
  rewrite Qpower_plus by discriminate.
  rewrite inject_Z_mult, (Zpower_Qpower 2 (e - k)) by lia.
  change (inject_Z 2) with 2%Q. apply Qmult_assoc.
Qed.

Lemma same_valueb_sound v w : same_valueb v w = true -> same_value v w.
Proof.
  destruct v as [|s|s m e], w as [|s'|s' m' e']; simpl; try done.
  - intros H. by apply Bool.eqb_prop.
  - intros H. apply andb_true_iff in H as [Hs Hm].
    apply Bool.eqb_prop in Hs as <-. apply Z.eqb_eq in Hm.
    split; [done|]. unfold finite_to_Q.
    rewrite <- !Qmult_assoc.
    rewrite (finite_rescale m e (Z.min e e')), (finite_rescale m' e' (Z.min e e')) by lia.
    by rewrite Hm.
Qed.

(* ===================================================================== *)
(** * The widening conversion is exact *)
(* ===================================================================== *)

Lemma widening_exact_all : forall_bits 16 widening_exactb = true.
Proof. vm_compute. reflexivity. Qed.

(** Every half-precision pattern and its image denote the same datum, and
    the image is a 32-bit pattern. *)
Lemma half_to_single_exact h :
  0 <= h < 65536 ->
  same_value (half_value h) (single_value (half_to_single h))
  /\ 0 <= half_to_single h < 2 ^ 32.
Proof.
  intros Hh.
  pose proof (forall_bits_sound 16 _ widening_exact_all h Hh) as H.
  unfold widening_exactb in H.
  apply andb_true_iff in H as [H Hlt]. apply andb_true_iff in H as [Hv Hge].
  split; [by apply same_valueb_sound | lia].
Qed.

(* ===================================================================== *)
(** * Byte buffers *)
(* ===================================================================== *)

Lemma byte_to_Z_range b : 0 <= byte_to_Z b < 256.
Proof.
  unfold byte_to_Z. pose proof (Byte.to_N_bounded b). lia.
Qed.

Lemma byte_to_of_Z z : byte_to_Z (byte_of_Z z) = z mod 256.
Proof.
  unfold byte_to_Z, byte_of_Z.
  assert (Hr : 0 <= z mod 256 < 256) by (apply Z.mod_pos_bound; lia).
  destruct (Byte.of_N (Z.to_N (z mod 256))) as [b|] eqn:E.
  - apply Byte.to_of_N in E. rewrite E. lia.
  - apply Byte.of_N_None_iff in E. lia.
Qed.

(** Induction on a buffer, two bytes at a time. *)
Lemma byte_pairs_ind (P : list byte -> Prop) :
  P [] -> (forall b, P [b]) ->
  (forall b0 b1 rest, P rest -> P (b0 :: b1 :: rest)) ->
  forall bs, P bs.
Proof.
  intros H0 H1 H2 bs.
  assert (both : P bs /\ forall b, P (b :: bs)).
  { induction bs as [|b bs [IH1 IH2]]; split; auto. }
  apply both.
Qed.

Lemma halves_of_bytes_range bs :
  Forall (fun h => 0 <= h < 65536) (halves_of_bytes bs).
Proof.
  induction bs as [|b|b0 b1 rest IH] using byte_pairs_ind; simpl; constructor; auto.
  pose proof (byte_to_Z_range b0). pose proof (byte_to_Z_range b1). lia.
Qed.

Lemma halves_of_bytes_length bs :
  Z.of_nat (length bs) mod 2 = 0 ->
  (2 * length (halves_of_bytes bs) = length bs)%nat.
Proof.
  induction bs as [|b|b0 b1 rest IH] using byte_pairs_ind; intros He.
  - done.
  - simpl in He. done.
  - simpl. rewrite <- IH; [lia|].
    simpl length in He. rewrite !Nat2Z.inj_succ in He.
    replace (Z.succ (Z.succ (Z.of_nat (length rest))))
      with (Z.of_nat (length rest) + 1 * 2) in He by lia.
    by rewrite Z.mod_add in He.
Qed.

Lemma tobytes_float32_length ws :
  length (tobytes_float32 ws) = (4 * length ws)%nat.
Proof.
  unfold tobytes_float32. induction ws as [|w ws IH]; simpl in *; lia.
Qed.

Lemma single_bytes_roundtrip w :
  0 <= w < 2 ^ 32 ->
  byte_to_Z (byte_of_Z w) + 256 * byte_to_Z (byte_of_Z (Z.shiftr w 8))
  + 65536 * byte_to_Z (byte_of_Z (Z.shiftr w 16))
  + 16777216 * byte_to_Z (byte_of_Z (Z.shiftr w 24)) = w.
Proof.
  intros Hw. rewrite !byte_to_of_Z, !Z.shiftr_div_pow2 by lia.
  change (2 ^ 8) with 256. change (2 ^ 16) with 65536. change (2 ^ 24) with 16777216.
  change (2 ^ 32) with 4294967296 in Hw.
  replace (w / 65536) with (w / 256 / 256) by (by rewrite Z.div_div by lia).
  replace (w / 16777216) with (w / 256 / 256 / 256) by (by rewrite !Z.div_div by lia).
  Z.div_mod_to_equations; lia.
Qed.

Lemma singles_of_tobytes ws :
  Forall (fun w => 0 <= w < 2 ^ 32) ws ->
  singles_of_bytes (tobytes_float32 ws) = ws.
Proof.
  unfold tobytes_float32.
  induction 1 as [|w ws Hw _ IH]; [done|].
  cbn [map concat single_to_bytes app singles_of_bytes].
  by rewrite single_bytes_roundtrip, IH.
Qed.

(* ===================================================================== *)
(** * Loops that may raise *)
(* ===================================================================== *)

Section for_each.
Context {A : Type} (body : A -> result A).

Lemma for_each_Ok l l' :
  for_each body l = Ok l' <-> Forall2 (fun x x' => body x = Ok x') l l'.
Proof.
  revert l'. induction l as [|x l IH]; intros l'; simpl.
  - split; [intros [= <-]; constructor | by inversion 1].
  - destruct (body x) as [x'|e] eqn:Hx; simpl.
    + destruct (for_each body l) as [k|e] eqn:Hl; simpl.
      * split.
        -- intros [= <-]. constructor; [done|]. by apply IH.
        -- inversion 1 as [|? y ? k' Hy Hk]; subst.
           apply IH in Hk. congruence.
      * split; [done|]. inversion 1 as [|? y ? k' Hy Hk]; subst.
        apply IH in Hk. congruence.
    + split; [done|]. inversion 1; congruence.
Qed.

Lemma for_each_lookup l l' i x :
  for_each body l = Ok l' -> l !! i = Some x ->
  exists x', l' !! i = Some x' /\ body x = Ok x'.
Proof.
  intros H Hx. apply for_each_Ok in H.
  destruct (Forall2_lookup_l _ _ _ _ _ H Hx) as (x' & ? & ?). eauto.
Qed.

Lemma for_each_length l l' : for_each body l = Ok l' -> length l' = length l.
Proof. intros H. apply for_each_Ok in H. symmetry. by eapply Forall2_length. Qed.

(** An element the body refuses makes the whole loop raise. *)
Lemma for_each_Raise l x e :
  x ∈ l -> body x = Raise e -> for_each body l = Raise ValueError.
Proof.
  intros Hin Hx. destruct (for_each body l) as [l'|[]] eqn:Hl; [|done].
  apply list_elem_of_lookup in Hin as [i Hi].
  destruct (for_each_lookup _ _ _ _ Hl Hi) as (x' & _ & Hx'). congruence.
Qed.

(** A body that accepts its own results gives a loop that does. *)
Lemma for_each_stable l l' :
  (forall x x', body x = Ok x' -> body x' = Ok x') ->
  for_each body l = Ok l' -> for_each body l' = Ok l'.
Proof.
  intros Hbody H. apply for_each_Ok in H. apply for_each_Ok.
  induction H; constructor; eauto.
Qed.

Lemma for_each_fixed l :
  Forall (fun x => body x = Ok x) l -> for_each body l = Ok l.
Proof.
  intros H. apply for_each_Ok. induction H; constructor; auto.
Qed.
End for_each.

(* ===================================================================== *)
(** * One tensor *)
(* ===================================================================== *)

Lemma np_frombuffer_float16_even raw :
  Z.of_nat (length raw) mod 2 = 0 ->
  np_frombuffer_float16 raw = Ok (halves_of_bytes raw).
Proof. intros H. unfold np_frombuffer_float16. by rewrite H. Qed.

Lemma np_frombuffer_float16_odd raw :
  Z.of_nat (length raw) mod 2 <> 0 ->
  np_frombuffer_float16 raw = Raise ValueError.
Proof.
  intros H. unfold np_frombuffer_float16.
  by destruct (Z.eqb_spec (Z.of_nat (length raw) mod 2) 0).
Qed.

(** The three ways [convert_tensor] can go. *)
Lemma convert_tensor_cases t :
  (convert_tensor t = Ok t /\ (data_type t <> FLOAT16 \/ raw_data t = []))
  \/ (convert_tensor t = Ok (widen t) /\ data_type t = FLOAT16 /\ raw_data t <> []
      /\ Z.of_nat (length (raw_data t)) mod 2 = 0)
  \/ (convert_tensor t = Raise ValueError /\ data_type t = FLOAT16
      /\ Z.of_nat (length (raw_data t)) mod 2 <> 0).
Proof.
  unfold convert_tensor.
  destruct (Z.eqb_spec (data_type t) FLOAT16) as [Hty|Hty]; [|by left; split; [|left]].
  destruct (raw_data t) as [|b bs] eqn:Hraw; [by left; split; [|right]|].
  right. destruct (Z.eq_dec (Z.of_nat (length (b :: bs)) mod 2) 0) as [He|Ho].
  - left. rewrite np_frombuffer_float16_even by done. unfold widen. rewrite Hraw. done.
  - right. rewrite np_frombuffer_float16_odd by done. done.
Qed.

Lemma convert_tensor_stable t t' :
  convert_tensor t = Ok t' -> convert_tensor t' = Ok t'.
Proof.
  destruct (convert_tensor_cases t) as [[H _]|[[H _]|[H _]]]; rewrite H; intros [= <-].
  - done.
  - done.
Qed.

(* ===================================================================== *)
(** * The rewrite of a graph *)
(* ===================================================================== *)

Lemma convert_graph_Ok g g' :
  convert_graph g = Ok g' <->
  exists initializer' node',
    for_each convert_tensor (initializer g) = Ok initializer'
    /\ for_each convert_node (node g) = Ok node'
    /\ g' = mkGraph (graph_name g) node' initializer'
              (map convert_value_info (input g))
              (map convert_value_info (output g))
              (map convert_value_info (value_info g)).
Proof.
  unfold convert_graph.
  destruct (for_each convert_tensor (initializer g)) as [ts|e]; simpl.
  - destruct (for_each convert_node (node g)) as [ns|e]; simpl.
    + split; [intros [= <-]; eauto|]. by intros (? & ? & [= <-] & [= <-] & ->).
    + split; [done|]. by intros (? & ? & _ & ? & _).
  - split; [done|]. by intros (? & ? & ? & _).
Qed.

Lemma convert_graph_initializer g g' i t :
  convert_graph g = Ok g' -> initializer g !! i = Some t ->
  exists t', initializer g' !! i = Some t' /\ convert_tensor t = Ok t'.
Proof.
  intros (ts & ns & Hts & _ & ->)%convert_graph_Ok Hi. simpl.
  by eapply for_each_lookup.
Qed.

Lemma convert_node_Ok n n' :
  convert_node n = Ok n' <->
  exists attrs',
    for_each convert_attribute
      (if (op_type n =? "Cast")%string then map retarget_cast (attribute n)
       else attribute n) = Ok attrs'
    /\ n' = set_attribute attrs' n.
Proof.
  unfold convert_node.
  destruct (for_each convert_attribute _) as [attrs'|e]; simpl.
  - split; [intros [= <-]; eauto|]. by intros (? & [= <-] & ->).
  - split; [done|]. by intros (? & ? & _).
Qed.

(** C2 (as amended).  A Constant tagged FLOAT16 whose [raw_data] is
    non-empty and of even length is accepted by the conversion; the
    converted tensor is tagged FLOAT, its payload is twice as long and is
    the little-endian image of the widened elements, each element read
    back from it denotes the same datum (same finite rational with the
    same sign, same infinity, NaN for NaN) as the half-precision element at
    that place, and the other fields are kept.  Whenever the rewrite of a
    graph holding the Constant completes, the converted tensor stands at
    the Constant's place. *)
Theorem constant_widened (t : TensorProto) :
  data_type t = FLOAT16 ->
  raw_data t <> [] ->
  Z.of_nat (length (raw_data t)) mod 2 = 0 ->
  exists t',
    convert_tensor t = Ok t'
    /\ data_type t' = FLOAT
    /\ length (raw_data t') = (2 * length (raw_data t))%nat
    /\ raw_data t' = tobytes_float32 (map half_to_single (halves_of_bytes (raw_data t)))
    /\ Forall2 (fun h f => same_value (half_value h) (single_value f))
         (halves_of_bytes (raw_data t)) (singles_of_bytes (raw_data t'))
    /\ (tensor_name t' = tensor_name t /\ dims t' = dims t
        /\ int32_data t' = int32_data t)
    /\ forall g g' i,
         convert_graph g = Ok g' -> initializer g !! i = Some t ->
         initializer g' !! i = Some t'.
Proof.
  intros Hty Hne Heven.
  assert (Hconv : convert_tensor t = Ok (widen t)).
  { destruct (convert_tensor_cases t) as [[_ [?|?]]|[[H _]|(_ & _ & ?)]]; done. }
  exists (widen t). repeat split; try done.
  - simpl. unfold astype_float32.
    rewrite tobytes_float32_length, length_map.
    pose proof (halves_of_bytes_length _ Heven). lia.
  - simpl. unfold astype_float32. rewrite singles_of_tobytes.
    + apply Forall2_fmap_r, Forall_Forall2_diag.
      eapply Forall_impl; [apply halves_of_bytes_range|].
      intros h Hh. by apply half_to_single_exact.
    + apply Forall_fmap.
      eapply Forall_impl; [apply halves_of_bytes_range|].
      intros h Hh. by apply half_to_single_exact.
  - intros g g' i Hg Hi.
    destruct (convert_graph_initializer _ _ _ _ Hg Hi) as (t' & Ht' & Hc).
    congruence.
Qed.

Lemma constant_widened_witness :
  exists t',
    convert_tensor half_1_5 = Ok t'
    /\ data_type t' = FLOAT
    /\ length (raw_data t') = (2 * length (raw_data half_1_5))%nat
    /\ raw_data t' = tobytes_float32 (map half_to_single (halves_of_bytes (raw_data half_1_5)))
    /\ Forall2 (fun h f => same_value (half_value h) (single_value f))
         (halves_of_bytes (raw_data half_1_5)) (singles_of_bytes (raw_data t'))
    /\ (tensor_name t' = tensor_name half_1_5 /\ dims t' = dims half_1_5
        /\ int32_data t' = int32_data half_1_5)
    /\ forall g g' i,
         convert_graph g = Ok g' -> initializer g !! i = Some half_1_5 ->
         initializer g' !! i = Some t'.
Proof.
  apply (constant_widened half_1_5); [reflexivity | discriminate | reflexivity].
Defined.

(** C2 as stated fails at the even length 0: a FLOAT16 Constant with an
    empty [raw_data] is a Constant of even byte length, and the rewrite
    completes with the Constant still tagged FLOAT16. *)
Lemma empty_payload_stays_half :
  data_type half_no_elements = FLOAT16
  /\ Z.of_nat (length (raw_data half_no_elements)) mod 2 = 0
  /\ convert_graph graph_half_no_elements = Ok graph_half_no_elements
  /\ data_type <$> initializer graph_half_no_elements !! 0%nat = Some FLOAT16.
Proof. split_and!; reflexivity. Qed.

(** Half-precision 1.5 becomes the bytes 00 00 c0 3f, single-precision
    1.5. *)
Example widen_1_5 :
  convert_tensor half_1_5 = Ok (mkTensor "w" [1] FLOAT [x00; x00; xc0; x3f] []).
Proof. reflexivity. Qed.

(** C10.  A Constant tagged FLOAT16 whose [raw_data] is empty is accepted
    by the conversion without an exception and comes out as it went in:
    still FLOAT16, same payload, same other fields; and whenever the
    rewrite of a graph holding it completes, the Constant stands unchanged
    at its place. *)
Theorem empty_half_constant_kept (t : TensorProto) :
  data_type t = FLOAT16 ->
  raw_data t = [] ->
  convert_tensor t = Ok t
  /\ forall g g' i,
       convert_graph g = Ok g' -> initializer g !! i = Some t ->
       initializer g' !! i = Some t.
Proof.
  intros Hty Hraw.
  assert (Hconv : convert_tensor t = Ok t).
  { unfold convert_tensor. by rewrite Hty, Hraw. }
  split; [done|]. intros g g' i Hg Hi.
  destruct (convert_graph_initializer _ _ _ _ Hg Hi) as (t' & Ht' & Hc).
  congruence.
Qed.

Lemma empty_half_constant_kept_witness :
  convert_tensor half_in_int32 = Ok half_in_int32
  /\ forall g g' i,
       convert_graph g = Ok g' -> initializer g !! i = Some half_in_int32 ->
       initializer g' !! i = Some half_in_int32.
Proof.
  apply (empty_half_constant_kept half_in_int32); reflexivity.
Defined.

(* ===================================================================== *)
(** * Attributes and nodes *)
(* ===================================================================== *)

Lemma convert_attribute_Ok a a' :
  convert_attribute a = Ok a' <->
  (attr_type a = TENSOR /\ exists t', convert_tensor (attr_t a) = Ok t' /\ a' = set_attr_t t' a)
  \/ (attr_type a <> TENSOR /\ a' = a).
Proof.
  unfold convert_attribute.
  destruct (attr_type a) eqn:Hty;
    try (split; [intros [= <-]; by right | by intros [[? _]|[_ ->]]]).
  destruct (convert_tensor (attr_t a)) as [t'|e]; simpl.
  - split; [intros [= <-]; left; eauto|].
    by intros [(_ & ? & [= <-] & ->)|[? _]].
  - split; [done|]. by intros [(_ & ? & ? & _)|[? _]].
Qed.

Lemma convert_attribute_stable a a' :
  convert_attribute a = Ok a' -> convert_attribute a' = Ok a'.
Proof.
  intros [(Hty & t' & Ht' & ->)|[Hty ->]]%convert_attribute_Ok; apply convert_attribute_Ok.
  - left. split; [done|]. exists t'. split; [|done]. simpl.
    by eapply convert_tensor_stable.
  - by right.
Qed.

(** The conversion of an attribute touches [t] only. *)
Lemma convert_attribute_name_i a a' :
  convert_attribute a = Ok a' -> attr_name a' = attr_name a /\ attr_i a' = attr_i a.
Proof.
  by intros [(_ & t' & _ & ->)|[_ ->]]%convert_attribute_Ok.
Qed.

Lemma retarget_cast_name a : attr_name (retarget_cast a) = attr_name a.
Proof. unfold retarget_cast. by destruct (_ && _). Qed.

Lemma retarget_cast_hit a :
  attr_name a = "to"%string -> attr_i a = FLOAT16 -> attr_i (retarget_cast a) = FLOAT.
Proof. intros Hn Hi. unfold retarget_cast. by rewrite Hn, Hi. Qed.

(** An attribute whose [i] is not FLOAT16 is not retargeted. *)
Lemma retarget_cast_miss a :
  attr_name a <> "to"%string \/ attr_i a <> FLOAT16 -> retarget_cast a = a.
Proof.
  intros H. unfold retarget_cast.
  destruct (String.eqb_spec (attr_name a) "to"); [|done].
  destruct (Z.eqb_spec (attr_i a) FLOAT16); [|done].
  by destruct H.
Qed.

Lemma retarget_cast_stable a : retarget_cast (retarget_cast a) = retarget_cast a.
Proof.
  unfold retarget_cast at 2.
  destruct (_ && _) eqn:E.
  - unfold retarget_cast. cbn [attr_name attr_i set_attr_i].
    change (FLOAT =? FLOAT16) with false. by rewrite andb_false_r, E.
  - unfold retarget_cast. by rewrite E.
Qed.

Lemma retarget_cast_fixed a :
  retarget_cast a = a -> attr_name a <> "to"%string \/ attr_i a <> FLOAT16.
Proof.
  unfold retarget_cast.
  destruct (String.eqb_spec (attr_name a) "to"); [|by left].
  destruct (Z.eqb_spec (attr_i a) FLOAT16) as [Hi|]; [|by right].
  simpl. intros H. apply (f_equal attr_i) in H. simpl in H.
  rewrite Hi in H. discriminate.
Qed.

(** What [convert_attribute] returns after [retarget_cast] is not
    retargeted again. *)
Lemma retarget_cast_after_convert a a' :
  convert_attribute (retarget_cast a) = Ok a' -> retarget_cast a' = a'.
Proof.
  intros H. apply retarget_cast_miss.
  destruct (convert_attribute_name_i _ _ H) as [-> ->].
  apply retarget_cast_fixed, retarget_cast_stable.
Qed.

Lemma convert_node_stable n n' :
  convert_node n = Ok n' -> convert_node n' = Ok n'.
Proof.
  intros (attrs' & Hattrs & ->)%convert_node_Ok. apply convert_node_Ok.
  exists attrs'. split; [|done]. cbn [op_type attribute set_attribute].
  destruct (op_type n =? "Cast")%string.
  - assert (Hfix : map retarget_cast attrs' = attrs').
    { apply for_each_Ok in Hattrs. apply Forall2_fmap_l in Hattrs.
      induction Hattrs as [|a a' l l' Ha _ IH]; [done|]. simpl.
      by rewrite IH, (retarget_cast_after_convert a a'). }
    rewrite Hfix. eapply for_each_stable; [apply convert_attribute_stable|done].
  - eapply for_each_stable; [apply convert_attribute_stable|done].
Qed.

Lemma convert_value_info_stable v :
  convert_value_info (convert_value_info v) = convert_value_info v.
Proof.
  unfold convert_value_info.
  destruct (elem_type v =? FLOAT16) eqn:E; [reflexivity|]. by rewrite E.
Qed.

Lemma convert_graph_stable g g' :
  convert_graph g = Ok g' -> convert_graph g' = Ok g'.
Proof.
  intros (ts & ns & Hts & Hns & ->)%convert_graph_Ok. apply convert_graph_Ok.
  exists ts, ns. cbn [initializer node input output value_info graph_name].
  split; [eapply for_each_stable; [apply convert_tensor_stable|done]|].
  split; [eapply for_each_stable; [apply convert_node_stable|done]|].
  rewrite <- !list_fmap_compose.
  f_equal; apply list_fmap_ext; intros; simpl; by rewrite convert_value_info_stable.
Qed.

(** C3.  The rewrite is idempotent: running it on its own result gives
    that result again, and a rewrite that raises does so whether a second
    pass is asked for or not.  In the error monad: the rewrite followed by
    the rewrite is the rewrite. *)
Theorem convert_graph_idempotent (g : GraphProto) :
  (let* g' := convert_graph g in convert_graph g') = convert_graph g.
Proof.
  destruct (convert_graph g) as [g'|e] eqn:Hg; simpl; [|done].
  by apply (convert_graph_stable g).
Qed.

(** C5.  When the rewrite completes, a node of kind "Cast" keeps its kind
    and its place, and every attribute of it that was named [to] and held
    FLOAT16 is, at the same place in the node, still named [to] and holds
    FLOAT. *)
Theorem cast_target_retargeted (g g' : GraphProto) (k j : nat)
    (n : NodeProto) (a : AttributeProto) :
  convert_graph g = Ok g' ->
  node g !! k = Some n ->
  op_type n = "Cast"%string ->
  attribute n !! j = Some a ->
  attr_name a = "to"%string ->
  attr_i a = FLOAT16 ->
  exists n' a',
    node g' !! k = Some n'
    /\ op_type n' = "Cast"%string
    /\ attribute n' !! j = Some a'
    /\ attr_name a' = "to"%string
    /\ attr_type a' = attr_type a
    /\ attr_i a' = FLOAT.
Proof.
  intros (ts & ns & _ & Hns & ->)%convert_graph_Ok Hk Hop Hj Hname Hi.
  destruct (for_each_lookup _ _ _ _ _ Hns Hk) as (n' & Hk' & Hn').
  apply convert_node_Ok in Hn' as (attrs' & Hattrs & ->).
  rewrite Hop in Hattrs. simpl in Hattrs.
  assert (Hj' : map retarget_cast (attribute n) !! j = Some (retarget_cast a)).
  { by rewrite list_lookup_fmap, Hj. }
  destruct (for_each_lookup _ _ _ _ _ Hattrs Hj') as (a' & Ha' & Hconv).
  exists (set_attribute attrs' n), a'. cbn [node op_type attribute set_attribute].
  destruct (convert_attribute_name_i _ _ Hconv) as [Hn' Hi'].
  repeat split; try done.
  - by rewrite Hn', retarget_cast_name.
  - apply convert_attribute_Ok in Hconv as [(_ & t' & _ & ->)|[_ ->]]; simpl;
      unfold retarget_cast; by destruct (_ && _).
  - by rewrite Hi', retarget_cast_hit.
Qed.

Example convert_sample_graph : convert_graph sample_graph = Ok sample_graph_fp32.
Proof. reflexivity. Qed.

Lemma cast_target_retargeted_witness :
  exists n' a',
    node sample_graph_fp32 !! 0%nat = Some n'
    /\ op_type n' = "Cast"%string
    /\ attribute n' !! 0%nat = Some a'
    /\ attr_name a' = "to"%string
    /\ attr_type a' = attr_type (attr_int "to" FLOAT16)
    /\ attr_i a' = FLOAT.
Proof.
  apply (cast_target_retargeted sample_graph sample_graph_fp32 0 0
           cast_to_half (attr_int "to" FLOAT16)); reflexivity.
Defined.

(* ===================================================================== *)
(** * What is left of FLOAT16 after the rewrite *)
(* ===================================================================== *)

Lemma for_each_Forall {A} (body : A -> result A) (P : A -> Prop) l l' :
  (forall x x', body x = Ok x' -> P x') ->
  for_each body l = Ok l' -> Forall P l'.
Proof.
  intros HP H. apply for_each_Ok in H. induction H; constructor; eauto.
Qed.

Lemma convert_tensor_residue t t' :
  convert_tensor t = Ok t' -> data_type t' = FLOAT16 -> raw_data t' = [].
Proof.
  destruct (convert_tensor_cases t) as [[H [?|?]]|[[H _]|[H _]]];
    rewrite H; intros [= <-]; try done.
Qed.

Lemma convert_value_info_not_half v : elem_type (convert_value_info v) <> FLOAT16.
Proof.
  unfold convert_value_info.
  by destruct (Z.eqb_spec (elem_type v) FLOAT16).
Qed.

Lemma convert_attribute_residue a a' :
  convert_attribute a = Ok a' ->
  Forall (fun t => data_type t = FLOAT16 -> raw_data t = []) (single_tensor a').
Proof.
  intros [(Hty & t' & Ht' & ->)|[Hty ->]]%convert_attribute_Ok; unfold single_tensor.
  - cbn [attr_type set_attr_t attr_t]. rewrite Hty. constructor; [|constructor].
    by eapply convert_tensor_residue.
  - by destruct (attr_type a).
Qed.

Lemma convert_node_residue n n' :
  convert_node n = Ok n' ->
  Forall (fun t => data_type t = FLOAT16 -> raw_data t = [])
         (flat_map single_tensor (attribute n')).
Proof.
  intros (attrs' & Hattrs & ->)%convert_node_Ok. cbn [attribute set_attribute].
  apply Forall_flat_map.
  eapply for_each_Forall; [|done]. apply convert_attribute_residue.
Qed.

(** C1 (as amended).  When the rewrite completes, no Type Declaration of
    the graph (input, output or intermediate) is FLOAT16, and every
    Constant and every tensor of a TENSOR attribute, on any node, that is
    still FLOAT16 has an empty [raw_data]. *)
Theorem no_half_payload_after_rewrite (g g' : GraphProto) :
  convert_graph g = Ok g' ->
  Forall (fun v => elem_type v <> FLOAT16) (type_declarations g')
  /\ Forall (fun t => data_type t = FLOAT16 -> raw_data t = []) (visited_tensors g').
Proof.
  intros (ts & ns & Hts & Hns & ->)%convert_graph_Ok.
  unfold type_declarations, visited_tensors.
  cbn [input output value_info initializer node]. split.
  - rewrite !Forall_app, !Forall_fmap.
    repeat split; apply Forall_forall; intros v _; apply convert_value_info_not_half.
  - apply Forall_app. split.
    + eapply for_each_Forall; [|done]. apply convert_tensor_residue.
    + apply Forall_flat_map.
      eapply for_each_Forall; [|done]. apply convert_node_residue.
Qed.

Lemma no_half_payload_after_rewrite_witness :
  Forall (fun v => elem_type v <> FLOAT16) (type_declarations sample_graph_fp32)
  /\ Forall (fun t => data_type t = FLOAT16 -> raw_data t = [])
            (visited_tensors sample_graph_fp32).
Proof.
  apply (no_half_payload_after_rewrite sample_graph sample_graph_fp32). reflexivity.
Defined.

(** C1 as stated fails: the rewrite of a graph whose Constant is FLOAT16
    with an empty [raw_data] completes and returns the graph as it was,
    with the FLOAT16 Constant in it. *)
Lemma half_constant_survives :
  convert_graph graph_half_in_int32 = Ok graph_half_in_int32
  /\ no_half_anywhere graph_half_in_int32 = false.
Proof. split; reflexivity. Qed.

(** So does a FLOAT16 tensor in an attribute of the list kind. *)
Lemma half_in_list_survives :
  convert_graph graph_half_in_list = Ok graph_half_in_list
  /\ no_half_anywhere graph_half_in_list = false.
Proof. split; reflexivity. Qed.

(* ===================================================================== *)
(** * Payloads of odd length *)
(* ===================================================================== *)

Lemma malformed_half_refused t :
  malformed_half t = true -> convert_tensor t = Raise ValueError.
Proof.
  unfold malformed_half, is_half. intros [Hty Hodd]%andb_true_iff.
  apply Z.eqb_eq in Hty. apply negb_true_iff, Z.eqb_neq in Hodd.
  destruct (convert_tensor_cases t) as [[_ [?|Hraw]]|[(_ & _ & _ & ?)|[H _]]]; try done.
  by rewrite Hraw in Hodd.
Qed.

Lemma retarget_cast_tensor a :
  attr_type (retarget_cast a) = attr_type a /\ attr_t (retarget_cast a) = attr_t a.
Proof. unfold retarget_cast. by destruct (_ && _). Qed.

Lemma convert_node_refuses n a :
  a ∈ attribute n -> attr_type a = TENSOR -> malformed_half (attr_t a) = true ->
  convert_node n = Raise ValueError.
Proof.
  intros Ha Hty Hbad. unfold convert_node.
  set (attrs := if (op_type n =? "Cast")%string then _ else _).
  assert (Hraise : exists b, b ∈ attrs /\ convert_attribute b = Raise ValueError).
  { subst attrs. destruct (op_type n =? "Cast")%string.
    - exists (retarget_cast a). split; [by apply list_elem_of_fmap_2|].
      unfold convert_attribute. destruct (retarget_cast_tensor a) as [-> ->].
      by rewrite Hty, malformed_half_refused.
    - exists a. split; [done|].
      unfold convert_attribute. by rewrite Hty, malformed_half_refused. }
  destruct Hraise as (b & Hb & Hraise).
  by rewrite (for_each_Raise _ _ _ _ Hb Hraise).
Qed.

(** C4 (as amended).  If a Constant, or the tensor of a TENSOR attribute
    of any node, is FLOAT16 with a [raw_data] whose length is not a
    multiple of 2, the rewrite of the graph raises [ValueError]: it does
    not complete, and returns no graph. *)
Theorem malformed_half_raises (g : GraphProto) (t : TensorProto) :
  t ∈ visited_tensors g ->
  malformed_half t = true ->
  convert_graph g = Raise ValueError.
Proof.
  intros Hin Hbad. unfold visited_tensors in Hin.
  apply elem_of_app in Hin as [Hin|Hin]; unfold convert_graph.
  - by rewrite (for_each_Raise _ _ _ _ Hin (malformed_half_refused _ Hbad)).
  - apply list_elem_of_In, in_flat_map in Hin as (n & Hn & Hin).
    apply in_flat_map in Hin as (a & Ha & Hin).
    apply list_elem_of_In in Hn, Ha.
    assert (attr_type a = TENSOR /\ t = attr_t a) as [Hty ->].
    { unfold single_tensor in Hin. destruct (attr_type a); simpl in Hin; intuition. }
    rewrite (for_each_Raise _ _ _ _ Hn (convert_node_refuses _ _ Ha Hty Hbad)).
    by destruct (for_each convert_tensor (initializer g)) as [?|[]].
Qed.

Lemma malformed_half_raises_witness :
  convert_graph graph_odd_constant = Raise ValueError.
Proof.
  apply (malformed_half_raises graph_odd_constant half_odd).
  - unfold visited_tensors. simpl. apply list_elem_of_In. simpl. auto.
  - reflexivity.
Defined.

(** C4 as stated fails: a FLOAT16 tensor of three bytes in an attribute
    of the list kind is passed over in silence, and the rewrite completes
    with the graph as it was. *)
Lemma malformed_half_in_list_unreported :
  existsb malformed_half (tensor_views graph_odd_in_list) = true
  /\ convert_graph graph_odd_in_list = Ok graph_odd_in_list.
Proof. split; reflexivity. Qed.

(* ===================================================================== *)
(** * The frame of the rewrite *)
(* ===================================================================== *)

Lemma convert_tensor_frame t t' : convert_tensor t = Ok t' -> tensor_frame t t'.
Proof.
  unfold tensor_frame, is_half.
  destruct (convert_tensor_cases t) as [[H _]|[[H (Hty & _)]|[H _]]];
    rewrite H; intros [= <-]; try done.
  repeat split; try done. rewrite Hty. done.
Qed.

Lemma convert_tensor_not_half t : is_half t = false -> convert_tensor t = Ok t.
Proof. unfold convert_tensor, is_half. by intros ->. Qed.

Lemma convert_value_info_frame v : decl_frame v (convert_value_info v).
Proof.
  unfold decl_frame, convert_value_info, is_half_decl.
  by destruct (elem_type v =? FLOAT16).
Qed.

Lemma set_attr_t_same a : set_attr_t (attr_t a) a = a.
Proof. by destruct a. Qed.

Lemma convert_attribute_not_half a :
  forallb (fun t => negb (is_half t)) (single_tensor a) = true ->
  convert_attribute a = Ok a.
Proof.
  intros H. apply convert_attribute_Ok. unfold single_tensor in H.
  destruct (attr_type a) eqn:Hty; try by right.
  left. split; [done|]. exists (attr_t a). split; [|by rewrite set_attr_t_same].
  apply convert_tensor_not_half. simpl in H.
  by destruct (is_half (attr_t a)).
Qed.

Lemma cast_loop_as_map n :
  (if (op_type n =? "Cast")%string then map retarget_cast (attribute n) else attribute n)
  = map (after_cast_loop n) (attribute n).
Proof.
  unfold after_cast_loop. destruct (op_type n =? "Cast")%string; [done|].
  by rewrite map_id.
Qed.

Lemma after_cast_loop_miss n a : is_cast_to_half n a = false -> after_cast_loop n a = a.
Proof.
  unfold is_cast_to_half, after_cast_loop.
  destruct (op_type n =? "Cast")%string; [|done]. simpl. intros H.
  apply retarget_cast_miss.
  destruct (String.eqb_spec (attr_name a) "to"); [|by left].
  destruct (Z.eqb_spec (attr_i a) FLOAT16); [done|by right].
Qed.

Lemma after_cast_loop_fields n a :
  let b := after_cast_loop n a in
  attr_name b = attr_name a /\ attr_type b = attr_type a
  /\ attr_f b = attr_f a /\ attr_s b = attr_s a
  /\ attr_floats b = attr_floats a /\ attr_ints b = attr_ints a
  /\ attr_strings b = attr_strings a /\ attr_tensors b = attr_tensors a
  /\ attr_t b = attr_t a.
Proof.
  unfold after_cast_loop, retarget_cast.
  destruct (op_type n =? "Cast")%string; [|done]. by destruct (_ && _).
Qed.

Lemma convert_attribute_fields b a' :
  convert_attribute b = Ok a' ->
  attr_name a' = attr_name b /\ attr_type a' = attr_type b
  /\ attr_f a' = attr_f b /\ attr_s a' = attr_s b
  /\ attr_floats a' = attr_floats b /\ attr_ints a' = attr_ints b
  /\ attr_strings a' = attr_strings b /\ attr_tensors a' = attr_tensors b.
Proof.
  by intros [(_ & t' & _ & ->)|[_ ->]]%convert_attribute_Ok.
Qed.

Lemma convert_attribute_frame n a a' :
  convert_attribute (after_cast_loop n a) = Ok a' -> attr_frame n a a'.
Proof.
  intros H. unfold attr_frame.
  destruct (after_cast_loop_fields n a) as (Hn & Hty & Hf & Hs & Hfs & His & Hss & Hts & Ht).
  assert (Htf : tensor_frame (attr_t a) (attr_t a')).
  { rewrite <- Ht.
    apply convert_attribute_Ok in H as [(_ & t' & Ht' & ->)|[_ ->]].
    - by apply convert_tensor_frame.
    - unfold tensor_frame. done. }
  assert (Hkeep : is_cast_to_half n a = false ->
                  forallb (fun t => negb (is_half t)) (single_tensor a) = true -> a' = a).
  { intros Hmiss Hnh. rewrite (after_cast_loop_miss _ _ Hmiss) in H.
    rewrite (convert_attribute_not_half _ Hnh) in H. congruence. }
  assert (Hi : is_cast_to_half n a = false -> attr_i a' = attr_i a).
  { intros Hmiss. rewrite (after_cast_loop_miss _ _ Hmiss) in H.
    by destruct (convert_attribute_name_i _ _ H). }
  destruct (convert_attribute_fields _ _ H) as (? & ? & ? & ? & ? & ? & ? & ?).
  split_and!; try congruence; done.
Qed.

Lemma convert_node_frame n n' : convert_node n = Ok n' -> node_frame n n'.
Proof.
  intros (attrs' & Hattrs & ->)%convert_node_Ok. unfold node_frame.
  repeat split; try done. cbn [attribute set_attribute].
  rewrite cast_loop_as_map in Hattrs.
  apply for_each_Ok, Forall2_fmap_l in Hattrs.
  eapply Forall2_impl; [done|]. intros a a'. apply convert_attribute_frame.
Qed.

Lemma convert_node_no_site n :
  forallb (fun a => negb (is_cast_to_half n a)) (attribute n) = true ->
  forallb (fun t => negb (is_half t)) (flat_map single_tensor (attribute n)) = true ->
  convert_node n = Ok n.
Proof.
  intros Hcast Hhalf. apply convert_node_Ok. exists (attribute n).
  split; [|by destruct n]. rewrite cast_loop_as_map.
  rewrite forallb_forall in Hcast, Hhalf.
  assert (Hmap : map (after_cast_loop n) (attribute n) = attribute n).
  { rewrite <- (map_id (attribute n)) at 2. apply map_ext_in.
    intros a Ha. apply after_cast_loop_miss, negb_true_iff. auto. }
  rewrite Hmap. apply for_each_fixed, Forall_forall. intros a Ha%list_elem_of_In.
  apply convert_attribute_not_half, forallb_forall. intros t Ht.
  apply Hhalf, in_flat_map. eauto.
Qed.

Lemma convert_value_info_no_site l :
  forallb (fun v => negb (is_half_decl v)) l = true -> map convert_value_info l = l.
Proof.
  intros H. rewrite forallb_forall in H.
  rewrite <- (map_id l) at 2. apply map_ext_in. intros v Hv.
  specialize (H v Hv). unfold convert_value_info, is_half_decl in *.
  by destruct (elem_type v =? FLOAT16).
Qed.

(** C6.  The rewrite leaves everything but FLOAT16 sites as it was.
    First, a graph with no FLOAT16 at any place the rewrite may write to
    (no FLOAT16 Constant, Type Declaration or TENSOR-attribute tensor, no
    Cast whose [to] names FLOAT16) is accepted and returned unchanged.
    Second, whenever the rewrite completes, the lists of Constants, Type
    Declarations, nodes and attributes keep their lengths and order; every
    tensor and Type Declaration that is not FLOAT16 (already FLOAT, or an
    integer type, ...) is identical in the result; every attribute that is
    neither the FLOAT16 [to] of a Cast nor a TENSOR attribute with a
    FLOAT16 tensor is identical in the result; and at the sites that do
    change, names, dims, shapes, [int32_data], node kinds, node inputs and
    outputs and all the other attribute fields are kept. *)
Theorem rewrite_frame (g : GraphProto) :
  (half_sites_absent g = true -> convert_graph g = Ok g)
  /\ (forall g', convert_graph g = Ok g' -> graph_frame g g').
Proof.
  split.
  - unfold half_sites_absent, visited_tensors, type_declarations.
    rewrite !andb_true_iff, !forallb_app, !andb_true_iff.
    intros [[[Hinit Hattr] (Hin & Hout & Hvi)] Hcast].
    apply convert_graph_Ok. exists (initializer g), (node g).
    rewrite !convert_value_info_no_site by done.
    split; [|split; [|by destruct g]].
    + apply for_each_fixed, Forall_forall. intros t Ht%list_elem_of_In.
      apply convert_tensor_not_half, negb_true_iff.
      rewrite forallb_forall in Hinit. auto.
    + apply for_each_fixed, Forall_forall. intros n Hn%list_elem_of_In.
      rewrite forallb_forall in Hcast, Hattr.
      apply convert_node_no_site; [auto|].
      apply forallb_forall. intros t Ht. apply Hattr, in_flat_map. eauto.
  - intros g' (ts & ns & Hts & Hns & ->)%convert_graph_Ok. unfold graph_frame.
    cbn [graph_name initializer input output value_info node].
    repeat split.
    + apply for_each_Ok in Hts. eapply Forall2_impl; [done|].
      intros t t'. apply convert_tensor_frame.
    + apply Forall2_fmap_r, Forall_Forall2_diag, Forall_forall.
      intros v _. apply convert_value_info_frame.
    + apply Forall2_fmap_r, Forall_Forall2_diag, Forall_forall.
      intros v _. apply convert_value_info_frame.
    + apply Forall2_fmap_r, Forall_Forall2_diag, Forall_forall.
      intros v _. apply convert_value_info_frame.
    + apply for_each_Ok in Hns. eapply Forall2_impl; [done|].
      intros n n'. apply convert_node_frame.
Qed.

Lemma rewrite_frame_witness :
  convert_graph graph_fp32 = Ok graph_fp32
  /\ graph_frame sample_graph sample_graph_fp32.
Proof.
  split.
  - apply (proj1 (rewrite_frame graph_fp32)). reflexivity.
  - apply (proj2 (rewrite_frame sample_graph) sample_graph_fp32). reflexivity.
Defined.

(* ===================================================================== *)
(** * The batch driver *)
(* ===================================================================== *)

Lemma convertible_print line w : convertible w -> convertible (print line w).
Proof. done. Qed.

Lemma convertible_save m g' path w :
  convert_graph (graph m) = Ok g' -> convertible w ->
  convertible (onnx_save (set_graph g' m) path w).
Proof.
  intros Hg Hw p m'. unfold onnx_save. cbn [fs].
  destruct (decide (path = p)) as [->|Hne].
  - rewrite lookup_insert_eq. intros [= <-]. exists g'.
    by apply (convert_graph_stable (graph m)).
  - rewrite lookup_insert_ne by done. apply Hw.
Qed.

Lemma os_path_exists_true w p : os_path_exists w p = true <-> is_Some (fs w !! p).
Proof. unfold os_path_exists. apply bool_decide_eq_true. Qed.

(** What one call of [convert_fp16_to_fp32] does when the rewrite cannot
    raise. *)
Lemma convert_fp16_to_fp32_convertible inp outp w :
  convertible w ->
  exists w' ok,
    convert_fp16_to_fp32 inp outp w = (w', Ok ok)
    /\ convertible w'
    /\ (forall line, line ∈ stdout w -> line ∈ stdout w')
    /\ ("Converting " +:+ inp +:+ " to FP32...")%string ∈ stdout w'.
Proof.
  intros Hw. unfold convert_fp16_to_fp32, onnx_load. cbn [print fs].
  destruct (fs w !! inp) as [[why|m]|] eqn:Hf.
  - eexists _, false. split; [done|]. split; [done|].
    cbn [print stdout]. split; [set_solver|set_solver].
  - destruct (Hw _ _ Hf) as [g' Hg]. rewrite Hg.
    eexists _, true. split; [done|]. split.
    + apply convertible_print, convertible_save; [done|]. by apply convertible_print.
    + cbn [print onnx_save stdout]. split; set_solver.
  - eexists _, false. split; [done|]. split; [done|].
    cbn [print stdout]. split; set_solver.
Qed.

(** C7 (as amended).  A load failure is local to its file: when the file
    of an entry exists and [onnx.load] refuses it, the driver prints the
    "Converting" line and the "Error loading" line with the path and the
    text of the exception, leaves the file system as it is, and goes on
    with the rest of the list.  And a run over any list, in a world where
    every stored model is one the rewrite accepts, ends normally whatever
    files are missing or unreadable, having printed for each entry either
    its "Skipping" line or its "Converting" line. *)
Theorem load_failure_is_local :
  (forall inp outp rest w why,
     fs w !! os_path_join base_dir inp = Some (Unreadable why) ->
     main_loop ((inp, outp) :: rest) w =
     main_loop rest
       (print ("Error loading " +:+ os_path_join base_dir inp +:+ ": " +:+ why)
          (print ("Converting " +:+ os_path_join base_dir inp +:+ " to FP32...") w)))
  /\ (forall pairs w,
        convertible w ->
        exists w',
          main_loop pairs w = (w', Ok tt)
          /\ forall inp outp, (inp, outp) ∈ pairs ->
               ("Skipping " +:+ inp +:+ " (not found)")%string ∈ stdout w'
               \/ ("Converting " +:+ os_path_join base_dir inp +:+ " to FP32...")%string
                    ∈ stdout w').
Proof.
  split.
  - intros inp outp rest w why Hf. cbn [main_loop].
    assert (Hex : os_path_exists w (os_path_join base_dir inp) = true).
    { apply os_path_exists_true. by rewrite Hf. }
    rewrite Hex. unfold convert_fp16_to_fp32, onnx_load. cbn [print fs].
    by rewrite Hf.
  - intros pairs w Hw.
    cut (exists w', main_loop pairs w = (w', Ok tt)
           /\ (forall line, line ∈ stdout w -> line ∈ stdout w')
           /\ forall inp outp, (inp, outp) ∈ pairs ->
               ("Skipping " +:+ inp +:+ " (not found)")%string ∈ stdout w'
               \/ ("Converting " +:+ os_path_join base_dir inp +:+ " to FP32...")%string
                    ∈ stdout w').
    { intros (w' & ? & _ & ?). eauto. }
    revert w Hw. induction pairs as [|[inp outp] rest IH]; intros w Hw.
    + exists w. split; [done|]. split; [done|]. intros ? ? H. by apply elem_of_nil in H.
    + cbn [main_loop].
      destruct (os_path_exists w (os_path_join base_dir inp)).
      * destruct (convert_fp16_to_fp32_convertible
                    (os_path_join base_dir inp) (os_path_join base_dir outp) w Hw)
          as (w1 & ok & -> & Hw1 & Hmono & Hline).
        destruct (IH w1 Hw1) as (w' & -> & Hmono' & Hrest).
        exists w'. split; [done|]. split; [auto|].
        intros i o [[= -> ->]|Hin]%elem_of_cons; [right; auto|]. eauto.
      * destruct (IH (print ("Skipping " +:+ inp +:+ " (not found)") w))
          as (w' & -> & Hmono' & Hrest); [by apply convertible_print|].
        exists w'. split; [done|]. split.
        -- intros line Hl. apply Hmono'. cbn [print stdout]. set_solver.
        -- intros i o [[= -> ->]|Hin]%elem_of_cons; [left|eauto].
           apply Hmono'. cbn [print stdout]. set_solver.
Qed.

Lemma load_failure_is_local_witness :
  main_loop models world_unreadable_first =
  main_loop (tail models)
    (print "Error loading local_models/restoration/ffanet-dehazing_indoor-fp16.onnx: Error parsing message"
       (print "Converting local_models/restoration/ffanet-dehazing_indoor-fp16.onnx to FP32..."
          world_unreadable_first))
  /\ exists w',
       main_loop models world_unreadable_first = (w', Ok tt)
       /\ forall inp outp, (inp, outp) ∈ models ->
            ("Skipping " +:+ inp +:+ " (not found)")%string ∈ stdout w'
            \/ ("Converting " +:+ os_path_join base_dir inp +:+ " to FP32...")%string
                 ∈ stdout w'.
Proof.
  split.
  - apply (proj1 load_failure_is_local
             "ffanet-dehazing_indoor-fp16.onnx" "ffanet-dehazing_indoor-fp32.onnx"
             (tail models) world_unreadable_first "Error parsing message").
    reflexivity.
  - apply (proj2 load_failure_is_local models world_unreadable_first).
    intros p m. unfold world_unreadable_first. cbn [fs].
    rewrite lookup_insert. case_decide; [done|].
    rewrite lookup_insert. case_decide; [|by rewrite lookup_empty].
    intros [= <-]. exists sample_graph_fp32. reflexivity.
Defined.

(** The run over the list of the script in [world_unreadable_first]: the
    first file is reported as not loadable, the second as missing, the
    third is converted and saved, the fourth is missing. *)
Example run_with_unreadable_file :
  snd (main world_unreadable_first) = Ok tt
  /\ stdout (fst (main world_unreadable_first)) =
     [ "Converting local_models/restoration/ffanet-dehazing_indoor-fp16.onnx to FP32...";
       "Error loading local_models/restoration/ffanet-dehazing_indoor-fp16.onnx: Error parsing message";
       "Skipping ffanet-dehazing_outdoor-fp16.onnx (not found)";
       "Converting local_models/restoration/mirnet_v2-lowlight-fp16.onnx to FP32...";
       "Saved FP32 model to local_models/restoration/mirnet_v2-lowlight-fp32.onnx";
       "Skipping mprnet-deraining-fp16.onnx (not found)" ]%string
  /\ fs (fst (main world_unreadable_first))
       !! "local_models/restoration/mirnet_v2-lowlight-fp32.onnx"%string
     = Some (ModelFile (model_of sample_graph_fp32)).
Proof. split_and!; vm_compute; reflexivity. Qed.

(** C7 as stated fails for a conversion failure: with a three-byte
    FLOAT16 Constant in the first model of the list, the [ValueError]
    leaves [convert_fp16_to_fp32] and the loop; the run ends with it after
    the first "Converting" line, and the second model, present and
    convertible, is neither converted nor reported on. *)
Lemma conversion_failure_aborts_run :
  snd (main world_bad_first) = Raise ValueError
  /\ stdout (fst (main world_bad_first)) =
     [ "Converting local_models/restoration/ffanet-dehazing_indoor-fp16.onnx to FP32..."%string ]
  /\ os_path_exists world_bad_first
       "local_models/restoration/ffanet-dehazing_outdoor-fp16.onnx" = true
  /\ fs (fst (main world_bad_first))
       !! "local_models/restoration/ffanet-dehazing_outdoor-fp32.onnx"%string = None.
Proof. split_and!; vm_compute; reflexivity. Qed.

(* ===================================================================== *)
(** * The reconciliation of the audit *)
(* ===================================================================== *)

(** What an identifier adds to [missing_on_disk]. *)
Lemma verify_step_unfold mappings ex a b uid :
  verify_step mappings ex (a, b) uid =
  (a ++ (if decide (mappings !! uid = None) then [uid] else []),
   b ++ match mappings !! uid with
        | Some p => if ex p then [] else [(uid, p)]
        | None => []
        end).
Proof.
  unfold verify_step. destruct (mappings !! uid) as [p|].
  - rewrite decide_False by done. destruct (ex p); simpl; by rewrite !app_nil_r.
  - rewrite decide_True by done. by rewrite app_nil_r.
Qed.

Lemma verification_from mappings ex ui_ids a b :
  fold_left (verify_step mappings ex) ui_ids (a, b) =
  (a ++ filter (fun uid => mappings !! uid = None) ui_ids,
   b ++ omap (fun uid => match mappings !! uid with
                         | Some p => if ex p then None else Some (uid, p)
                         | None => None
                         end) ui_ids).
Proof.
  revert a b. induction ui_ids as [|uid rest IH]; intros a b.
  - simpl. by rewrite !app_nil_r.
  - cbn [fold_left]. rewrite verify_step_unfold, IH, <- !app_assoc.
    f_equal.
    + f_equal. rewrite filter_cons. by case_decide.
    + f_equal. simpl. destruct (mappings !! uid) as [p|]; [|done]. by destruct (ex p).
Qed.

(** C8.  The two lists of the reconciliation are, in the order of the UI
    identifiers and once per occurrence: the identifiers without an entry
    in the Mapping; and, for the identifiers with an entry, the pairs of
    the identifier and its mapped path for which the presence test says
    no.  So an identifier is in the first list exactly when it is a UI
    identifier with no entry, a pair is in the second exactly when its
    identifier is a UI identifier mapped to that path and the path is
    absent, and an identifier whose mapped path is present is in neither. *)
Theorem verification_reconciles (ui_ids : list string) (mappings : gmap string string)
    (exists_on_disk : string -> bool) :
  let missing_in_copy := fst (verification ui_ids mappings exists_on_disk) in
  let missing_on_disk := snd (verification ui_ids mappings exists_on_disk) in
  missing_in_copy = filter (fun uid => mappings !! uid = None) ui_ids
  /\ missing_on_disk =
     omap (fun uid => match mappings !! uid with
                      | Some p => if exists_on_disk p then None else Some (uid, p)
                      | None => None
                      end) ui_ids
  /\ (forall uid, uid ∈ missing_in_copy <-> uid ∈ ui_ids /\ mappings !! uid = None)
  /\ (forall uid p, (uid, p) ∈ missing_on_disk <->
        uid ∈ ui_ids /\ mappings !! uid = Some p /\ exists_on_disk p = false)
  /\ (forall uid p, mappings !! uid = Some p -> exists_on_disk p = true ->
        (uid ∉ missing_in_copy) /\ (forall q, (uid, q) ∉ missing_on_disk)).
Proof.
  unfold verification. rewrite verification_from. cbn [fst snd app].
  assert (Hdisk : forall uid p,
    (uid, p) ∈ omap (fun uid => match mappings !! uid with
                      | Some p => if exists_on_disk p then None else Some (uid, p)
                      | None => None
                      end) ui_ids <->
    uid ∈ ui_ids /\ mappings !! uid = Some p /\ exists_on_disk p = false).
  { intros uid p. rewrite list_elem_of_omap. split.
    - intros (u & Hu & Hm). destruct (mappings !! u) as [q|] eqn:Hq; [|done].
      destruct (exists_on_disk q) eqn:Hex; [done|]. by simplify_eq.
    - intros (Hu & Hm & Hex). exists uid. by rewrite Hm, Hex. }
  split_and!; try done.
  - intros uid. by rewrite list_elem_of_filter, (comm and).
  - intros uid p Hm Hex. split.
    + rewrite list_elem_of_filter. intros [? _]. congruence.
    + intros q [_ [Hq Hex']]%Hdisk. congruence.
Qed.

Lemma verification_reconciles_witness :
  verification ["a"; "b"; "c"]%string
     (<["a" := "/x/a.bin"]> (<["b" := "/x/b.bin"]> ∅))%string
     (fun p => String.eqb p "/x/a.bin")
  = (["c"], [("b", "/x/b.bin")])%string.
Proof.
  pose proof (verification_reconciles ["a"; "b"; "c"]%string
     (<["a" := "/x/a.bin"]> (<["b" := "/x/b.bin"]> ∅))%string
     (fun p => String.eqb p "/x/a.bin")) as (H1 & H2 & _).
  cbv zeta in H1, H2.
  rewrite (surjective_pairing (verification _ _ _)), H1, H2.
  vm_compute. reflexivity.
Defined.

(* ===================================================================== *)
(** * The Mapping of the manifest *)
(* ===================================================================== *)

Lemma scan_line_entry mappings line :
  scan_line mappings line =
  match manifest_entry line with
  | Some (model_id, src) => <[model_id := src]> mappings
  | None => mappings
  end.
Proof.
  unfold scan_line, manifest_entry.
  destruct (_ && _); [|done]. by destruct (re_search line) as [[src dest]|].
Qed.

Lemma extract_mappings_snoc lines line :
  extract_mappings (lines ++ [line]) = scan_line (extract_mappings lines) line.
Proof. unfold extract_mappings. by rewrite fold_left_app. Qed.

Lemma scan_lines_other_keys lines mappings k :
  Forall (fun l => forall v, manifest_entry l <> Some (k, v)) lines ->
  fold_left scan_line lines mappings !! k = mappings !! k.
Proof.
  revert mappings. induction lines as [|l lines IH]; intros mappings Hl; [done|].
  apply Forall_cons in Hl as [Hl Hrest]. cbn [fold_left].
  rewrite IH by done. rewrite scan_line_entry.
  destruct (manifest_entry l) as [[k' v']|]; [|done].
  apply lookup_insert_ne. intros ->. by apply (Hl v').
Qed.

(** Last write wins: the Mapping gives an identifier the [src] of the last
    line of the manifest that yields it. *)
Lemma extract_mappings_last_wins before line after k v :
  manifest_entry line = Some (k, v) ->
  Forall (fun l => forall v', manifest_entry l <> Some (k, v')) after ->
  extract_mappings (before ++ line :: after) !! k = Some v.
Proof.
  intros Hline Hafter. unfold extract_mappings.
  rewrite fold_left_app. cbn [fold_left].
  rewrite scan_lines_other_keys by done.
  rewrite scan_line_entry, Hline. apply lookup_insert_eq.
Qed.

(** An identifier is in the Mapping only if some line yields it. *)
Lemma extract_mappings_from_line lines k v :
  extract_mappings lines !! k = Some v ->
  exists line, line ∈ lines /\ manifest_entry line = Some (k, v).
Proof.
  induction lines as [|line lines IH] using rev_ind.
  - unfold extract_mappings. simpl. by rewrite lookup_empty.
  - rewrite extract_mappings_snoc, scan_line_entry.
    destruct (manifest_entry line) as [[k' v']|] eqn:Hline.
    + destruct (decide (k' = k)) as [->|Hne].
      * rewrite lookup_insert_eq. intros [= ->]. exists line. split; [set_solver|done].
      * rewrite lookup_insert_ne by done. intros (l & ? & ?)%IH. exists l. set_solver.
    + intros (l & ? & ?)%IH. exists l. set_solver.
Qed.

(** Two entries for the destination [m.onnx], and a commented-out one
    between them: the identifier [m] ends with the path of the second
    live entry. *)
Example manifest_last_write_wins :
  extract_mappings manifest_two_entries
  = {[ "m" := "local_models/restoration/new/m.onnx" ]}%string.
Proof. vm_compute. reflexivity. Qed.

(** Where [.onnx] is only the end of the file name, the key is the name
    without it, as the comment of the script has it. *)
Example manifest_key_plain :
  manifest_entry "  { src: 'local_models/restoration/mirnet_v2-lowlight-fp16.onnx', dest: 'public/models/restoration/mirnet_v2-lowlight-fp16.onnx' },"
  = Some ("mirnet_v2-lowlight-fp16", "local_models/restoration/mirnet_v2-lowlight-fp16.onnx")%string
  /\ strip_suffix ".onnx" (basename "public/models/restoration/mirnet_v2-lowlight-fp16.onnx")
     = "mirnet_v2-lowlight-fp16"%string.
Proof. split_and!; vm_compute; reflexivity. Qed.

(** C9, the code at the failing input.  For the destination
    [nafnet.onnx_data] the final path segment does not end in [.onnx], so
    stripping the suffix leaves it as it is; the script removes the
    [.onnx] inside the name and files the entry under [nafnet_data], and
    the Mapping has nothing under [nafnet.onnx_data]. *)
Theorem manifest_key_removes_inner_onnx :
  strip_suffix ".onnx" (basename "public/models/restoration/nafnet.onnx_data")
    = "nafnet.onnx_data"%string
  /\ extract_mappings manifest_external_data
     = {[ "nafnet_data" := "local_models/restoration/nafnet.onnx_data" ]}%string
  /\ extract_mappings manifest_external_data !! "nafnet.onnx_data"%string = None.
Proof. split_and!; vm_compute; reflexivity. Qed.

(** For a file name [stem.onnx] whose stem has no dot, removing [.onnx]
    and stripping the suffix [.onnx] agree: both give the stem. *)
Lemma key_of_plain_name stem :
  no_dot stem = true ->
  replace ".onnx" "" (stem +:+ ".onnx") = stem
  /\ strip_suffix ".onnx" (stem +:+ ".onnx") = stem.
Proof.
  unfold replace. induction stem as [|c stem IH]; intros Hdot; [done|].
  cbn [no_dot] in Hdot. apply andb_true_iff in Hdot as [Hc Hdot].
  apply negb_true_iff in Hc. destruct (IH Hdot) as [IH1 IH2].
  change (String c stem +:+ ".onnx") with (String c (stem +:+ ".onnx")).
  cbn [replace_from strip_suffix String.prefix String.eqb].
  rewrite Hc. apply Ascii.eqb_neq in Hc.
  destruct (ascii_dec "." c) as [<-|_]; [done|].
  by rewrite IH1, IH2.
Qed.

(* ===================================================================== *)
(** * More on the rewrite of a graph *)
(* ===================================================================== *)

Lemma for_each_Raise_inv {A} (body : A -> result A) l e :
  for_each body l = Raise e -> exists x, x ∈ l /\ body x = Raise ValueError.
Proof.
  destruct e. induction l as [|x l IH]; simpl; [done|].
  destruct (body x) as [x'|[]] eqn:Hx; simpl.
  - destruct (for_each body l) as [l'|[]] eqn:Hl; simpl; [done|].
    intros _. destruct IH as (y & Hy & Hraise); [done|].
    exists y. split; [by right|done].
  - intros _. exists x. split; [by left|done].
Qed.

Lemma convert_tensor_Raise t e :
  convert_tensor t = Raise e -> malformed_half t = true.
Proof.
  unfold malformed_half, is_half.
  destruct (convert_tensor_cases t) as [[H _]|[[H _]|(H & Hty & Hodd)]];
    rewrite H; intros [=].
  rewrite Hty. apply andb_true_iff. split; [done|].
  by apply negb_true_iff, Z.eqb_neq.
Qed.

Lemma convert_attribute_Raise a e :
  convert_attribute a = Raise e ->
  attr_type a = TENSOR /\ malformed_half (attr_t a) = true.
Proof.
  unfold convert_attribute. destruct (attr_type a); try done.
  destruct (convert_tensor (attr_t a)) as [t'|e'] eqn:Ht; [done|].
  intros _. split; [done|]. by eapply convert_tensor_Raise.
Qed.

Lemma convert_node_Raise n e :
  convert_node n = Raise e ->
  exists a, a ∈ attribute n /\ attr_type a = TENSOR /\ malformed_half (attr_t a) = true.
Proof.
  unfold convert_node. rewrite cast_loop_as_map.
  destruct (for_each convert_attribute _) as [attrs'|e'] eqn:Hattrs; [done|].
  intros _. apply for_each_Raise_inv in Hattrs as (b & Hb & Hraise).
  apply list_elem_of_fmap in Hb as (a & -> & Ha).
  apply convert_attribute_Raise in Hraise as [Hty Hbad].
  destruct (after_cast_loop_fields n a) as (_ & Hty' & _ & _ & _ & _ & _ & _ & Ht).
  exists a. by rewrite <- Hty', <- Ht.
Qed.

(** The rewrite raises only for an odd-length FLOAT16 payload at a place
    it visits: on a graph where no Constant and no tensor of a TENSOR
    attribute is FLOAT16 with a [raw_data] of odd length, it completes. *)
Theorem rewrite_completes (g : GraphProto) :
  forallb (fun t => negb (malformed_half t)) (visited_tensors g) = true ->
  exists g', convert_graph g = Ok g'.
Proof.
  intros Hok. rewrite forallb_forall in Hok.
  destruct (convert_graph g) as [g'|e] eqn:Hg; [eauto|]. exfalso.
  assert (Hbad : exists t, In t (visited_tensors g) /\ malformed_half t = true).
  { unfold convert_graph in Hg. unfold visited_tensors.
    destruct (for_each convert_tensor (initializer g)) as [ts|e1] eqn:Hts.
    - destruct (for_each convert_node (node g)) as [ns|e2] eqn:Hns; [done|].
      apply for_each_Raise_inv in Hns as (n & Hn & Hraise).
      apply convert_node_Raise in Hraise as (a & Ha & Hty & Hbad).
      exists (attr_t a). split; [|done]. apply in_or_app. right.
      apply in_flat_map. exists n. split; [by apply list_elem_of_In|].
      apply in_flat_map. exists a. split; [by apply list_elem_of_In|].
      unfold single_tensor. rewrite Hty. by left.
    - apply for_each_Raise_inv in Hts as (t & Ht & Hraise).
      exists t. split; [apply in_or_app; left; by apply list_elem_of_In|].
      by eapply convert_tensor_Raise. }
  destruct Hbad as (t & Hin & Hbad). specialize (Hok t Hin). by rewrite Hbad in Hok.
Qed.

Lemma rewrite_completes_witness : exists g', convert_graph sample_graph = Ok g'.
Proof. apply (rewrite_completes sample_graph). reflexivity. Defined.

(* ===================================================================== *)
(** * Nothing is lost by the widening *)
(* ===================================================================== *)

Lemma half_of_widened_all :
  forall_bits 16 (fun h => half_of_widened (half_to_single h) =? h) = true.
Proof. vm_compute. reflexivity. Qed.

Lemma half_of_widened_inverse h :
  0 <= h < 65536 -> half_of_widened (half_to_single h) = h.
Proof.
  intros Hh. apply Z.eqb_eq.
  apply (forall_bits_sound 16 _ half_of_widened_all h Hh).
Qed.

(** Two different half-precision patterns (NaN payloads and the sign of
    zero included) are never cast to the same single-precision pattern. *)
Theorem half_to_single_injective (h1 h2 : Z) :
  0 <= h1 < 65536 -> 0 <= h2 < 65536 ->
  h1 <> h2 -> half_to_single h1 <> half_to_single h2.
Proof.
  intros H1 H2 Hne Heq. apply Hne.
  rewrite <- (half_of_widened_inverse h1 H1), <- (half_of_widened_inverse h2 H2).
  by rewrite Heq.
Qed.

Lemma half_to_single_injective_witness :
  half_to_single 0x7e00 <> half_to_single 0x7e01.
Proof. apply (half_to_single_injective 0x7e00 0x7e01); lia. Defined.

Lemma byte_of_to_Z b : byte_of_Z (byte_to_Z b) = b.
Proof.
  unfold byte_of_Z, byte_to_Z. pose proof (Byte.to_N_bounded b).
  rewrite Z.mod_small by lia. rewrite N2Z.id. by rewrite Byte.of_to_N.
Qed.

Lemma byte_of_Z_mod z : byte_of_Z (z mod 256) = byte_of_Z z.
Proof. unfold byte_of_Z. by rewrite Z.mod_mod. Qed.

Lemma half_bytes_roundtrip b0 b1 :
  half_to_bytes (byte_to_Z b0 + 256 * byte_to_Z b1) = [b0; b1].
Proof.
  unfold half_to_bytes.
  pose proof (byte_to_Z_range b0). pose proof (byte_to_Z_range b1).
  rewrite Z.shiftr_div_pow2 by lia. change (2 ^ 8) with 256.
  f_equal; [|f_equal].
  - rewrite <- byte_of_Z_mod.
    replace ((byte_to_Z b0 + 256 * byte_to_Z b1) mod 256) with (byte_to_Z b0)
      by (Z.div_mod_to_equations; lia).
    apply byte_of_to_Z.
  - replace ((byte_to_Z b0 + 256 * byte_to_Z b1) / 256) with (byte_to_Z b1)
      by (Z.div_mod_to_equations; lia).
    apply byte_of_to_Z.
Qed.

Lemma tobytes_of_halves raw :
  Z.of_nat (length raw) mod 2 = 0 -> tobytes_float16 (halves_of_bytes raw) = raw.
Proof.
  unfold tobytes_float16.
  induction raw as [|b|b0 b1 rest IH] using byte_pairs_ind; intros He.
  - done.
  - done.
  - cbn [halves_of_bytes map concat]. rewrite half_bytes_roundtrip, IH; [done|].
    simpl length in He. rewrite !Nat2Z.inj_succ in He.
    replace (Z.succ (Z.succ (Z.of_nat (length rest))))
      with (Z.of_nat (length rest) + 1 * 2) in He by lia.
    by rewrite Z.mod_add in He.
Qed.

Lemma widened_payload_read_back raw :
  Z.of_nat (length raw) mod 2 = 0 ->
  tobytes_float16
    (map half_of_widened
       (singles_of_bytes (tobytes_float32 (astype_float32 (halves_of_bytes raw)))))
  = raw.
Proof.
  intros He. unfold astype_float32. rewrite singles_of_tobytes.
  - rewrite map_map.
    rewrite (map_ext_in _ id), map_id; [by apply tobytes_of_halves|].
    intros h Hh. apply half_of_widened_inverse.
    pose proof (halves_of_bytes_range raw) as Hr.
    rewrite Forall_forall in Hr. by apply Hr, list_elem_of_In.
  - apply Forall_fmap. eapply Forall_impl; [apply halves_of_bytes_range|].
    intros h Hh. by apply half_to_single_exact.
Qed.

(** The FLOAT16 payload of a tensor can be read back from what the
    conversion stores: decode the new [raw_data] as little-endian singles,
    take each back to its half-precision pattern, and the bytes are those
    of the old [raw_data].  So two FLOAT16 tensors with different payloads
    never get the same converted payload. *)
Theorem converted_payload_read_back (t t' : TensorProto) :
  data_type t = FLOAT16 ->
  convert_tensor t = Ok t' ->
  tobytes_float16 (map half_of_widened (singles_of_bytes (raw_data t'))) = raw_data t.
Proof.
  intros Hty.
  destruct (convert_tensor_cases t) as [[H [?|Hraw]]|[(H & _ & _ & He)|[H _]]];
    rewrite H; intros [= <-]; try done.
  - by rewrite Hraw.
  - by apply widened_payload_read_back.
Qed.

Lemma converted_payload_read_back_witness :
  tobytes_float16
    (map half_of_widened
       (singles_of_bytes (raw_data (mkTensor "w" [1] FLOAT [x00; x00; xc0; x3f] []))))
  = raw_data half_1_5.
Proof.
  apply (converted_payload_read_back half_1_5); reflexivity.
Defined.

(* ===================================================================== *)
(** * More on the conversion of a file and on the batch *)
(* ===================================================================== *)

Lemma conversion_outcome_cases (input_path output_path : string) (w w' : world)
    (r : result bool) :
  convert_fp16_to_fp32 input_path output_path w = (w', r) ->
  match r with
  | Ok true =>
      exists m g',
        fs w !! input_path = Some (ModelFile m)
        /\ convert_graph (graph m) = Ok g'
        /\ convert_graph g' = Ok g'
        /\ fs w' = <[output_path :=
                      ModelFile (mkModel (ir_version m) (producer_name m) g')]> (fs w)
  | Ok false =>
      (forall m, fs w !! input_path <> Some (ModelFile m)) /\ fs w' = fs w
  | Raise _ =>
      (exists m, fs w !! input_path = Some (ModelFile m)
                 /\ convert_graph (graph m) = Raise ValueError)
      /\ fs w' = fs w
  end.
Proof.
  unfold convert_fp16_to_fp32, onnx_load. cbn [print fs].
  destruct (fs w !! input_path) as [[why|m]|] eqn:Hf.
  - intros [= <- <-]. by split.
  - destruct (convert_graph (graph m)) as [g'|[]] eqn:Hg; intros [= <- <-].
    + exists m, g'. split_and!; try done. by apply (convert_graph_stable (graph m)).
    + split; [|done]. by exists m.
  - intros [= <- <-]. by split.
Qed.



Lemma convert_fp16_to_fp32_fs_frame inp outp w w' r p :
  convert_fp16_to_fp32 inp outp w = (w', r) -> p <> outp -> fs w' !! p = fs w !! p.
Proof.
  intros H Hp. pose proof (conversion_outcome_cases _ _ _ _ _ H) as Hout.
  destruct r as [[]|e].
  - destruct Hout as (m & g' & _ & _ & _ & ->). by rewrite lookup_insert_ne.
  - destruct Hout as [_ ->]. done.
  - destruct Hout as [_ ->]. done.
Qed.

Lemma main_loop_fs_frame (pairs : list (string * string))
    (w w' : world) (r : result unit) (p : string) :
  main_loop pairs w = (w', r) ->
  (forall inp outp, (inp, outp) ∈ pairs -> p <> os_path_join base_dir outp) ->
  fs w' !! p = fs w !! p.
Proof.
  revert w. induction pairs as [|[inp outp] rest IH]; intros w Hrun Hp.
  - by injection Hrun as <- _.
  - cbn [main_loop] in Hrun.
    assert (Hrest : forall i o, (i, o) ∈ rest -> p <> os_path_join base_dir o).
    { intros i o Hin. apply (Hp i o). by right. }
    destruct (os_path_exists w (os_path_join base_dir inp)).
    + destruct (convert_fp16_to_fp32 _ _ w) as [w1 [ok|e]] eqn:Hconv.
      * rewrite (IH w1 Hrun Hrest).
        eapply convert_fp16_to_fp32_fs_frame; [done|]. apply (Hp inp outp). by left.
      * injection Hrun as <- _.
        eapply convert_fp16_to_fp32_fs_frame; [done|]. apply (Hp inp outp). by left.
    + by rewrite (IH _ Hrun Hrest).
Qed.

(** The batch writes to output paths only: whatever the run does, and
    whether it ends normally or with an exception, a path that is not the
    output path of an entry of the list holds afterwards what it held
    before.  In particular no input that is not also an output is changed
    or removed. *)
Theorem main_loop_writes_outputs_only (pairs : list (string * string))
    (w w' : world) (r : result unit) (p : string) :
  main_loop pairs w = (w', r) ->
  (forall inp outp, (inp, outp) ∈ pairs -> p <> os_path_join base_dir outp) ->
  fs w' !! p = fs w !! p.
Proof. apply main_loop_fs_frame. Qed.

Lemma main_loop_writes_outputs_only_witness :
  fs (fst (main_loop models world_bad_first))
    !! "local_models/restoration/ffanet-dehazing_outdoor-fp16.onnx"%string
  = fs world_bad_first !! "local_models/restoration/ffanet-dehazing_outdoor-fp16.onnx"%string.
Proof.
  apply (main_loop_writes_outputs_only models world_bad_first _
           (snd (main_loop models world_bad_first))).
  - by destruct (main_loop models world_bad_first).
  - intros inp outp Hin. apply list_elem_of_In in Hin. simpl in Hin.
    destruct Hin as [[= <- <-]|[[= <- <-]|[[= <- <-]|[[= <- <-]|[]]]]]; by vm_compute.
Defined.

(** Converting a converted file changes nothing: when a conversion has
    returned [True], converting its output again returns [True] and saves
    the very model the first conversion saved. *)
Theorem conversion_of_converted (input_path output_path again : string)
    (w w1 : world) :
  convert_fp16_to_fp32 input_path output_path w = (w1, Ok true) ->
  exists w2,
    convert_fp16_to_fp32 output_path again w1 = (w2, Ok true)
    /\ fs w2 !! again = fs w1 !! output_path.
Proof.
  intros H. destruct (conversion_outcome_cases _ _ _ _ _ H) as (m & g' & _ & _ & Hg' & Hfs).
  unfold convert_fp16_to_fp32 in H |- *. unfold onnx_load. cbn [print fs].
  rewrite Hfs, lookup_insert_eq. cbn [graph]. rewrite Hg'.
  eexists. split; [done|]. cbn [print onnx_save fs set_graph ir_version producer_name].
  by rewrite lookup_insert_eq.
Qed.

Lemma conversion_of_converted_witness :
  exists w2,
    convert_fp16_to_fp32 "b.onnx" "c.onnx"
      (fst (convert_fp16_to_fp32 "a.onnx" "b.onnx"
              (mkWorld {[ "a.onnx"%string := ModelFile (model_of sample_graph) ]} [])))
    = (w2, Ok true)
    /\ fs w2 !! "c.onnx"%string
       = fs (fst (convert_fp16_to_fp32 "a.onnx" "b.onnx"
                    (mkWorld {[ "a.onnx"%string := ModelFile (model_of sample_graph) ]} [])))
           !! "b.onnx"%string.
Proof.
  apply (conversion_of_converted "a.onnx" "b.onnx" "c.onnx"
           (mkWorld {[ "a.onnx"%string := ModelFile (model_of sample_graph) ]} [])).
  reflexivity.
Defined.

(* ===================================================================== *)
(** * Text *)
(* ===================================================================== *)

Lemma app_cons c s t : String c s +:+ t = String c (s +:+ t).
Proof. done. Qed.

Lemma app_empty_l s : "" +:+ s = s.
Proof. done. Qed.


Lemma app_assoc_string s t u : (s +:+ t) +:+ u = s +:+ (t +:+ u).
Proof. induction s as [|c s IH]; [done|]. by rewrite !app_cons, IH. Qed.

Lemma prefix_app lit r : String.prefix lit (lit +:+ r) = true.
Proof.
  induction lit as [|c lit IH]; [by destruct r|].
  rewrite app_cons. cbn [String.prefix]. by destruct (ascii_dec c c).
Qed.

Lemma prefix_split lit s :
  String.prefix lit s = true -> s = lit +:+ drop_chars (String.length lit) s.
Proof.
  revert s. induction lit as [|c lit IH]; intros s; [done|].
  destruct s as [|d s]; [done|]. cbn [String.prefix].
  destruct (ascii_dec c d) as [<-|]; [|done].
  intros H. cbn [String.length drop_chars]. rewrite app_cons. f_equal. by apply IH.
Qed.

Lemma drop_chars_app lit r : drop_chars (String.length lit) (lit +:+ r) = r.
Proof. induction lit as [|c lit IH]; [by destruct r|]. by rewrite app_cons. Qed.

Lemma literal_Some lit s r : literal lit s = Some r -> s = lit +:+ r.
Proof.
  unfold literal. destruct (String.prefix lit s) eqn:H; [|done].
  intros [= <-]. by apply prefix_split.
Qed.

Lemma literal_app lit r : literal lit (lit +:+ r) = Some r.
Proof. unfold literal. by rewrite prefix_app, drop_chars_app. Qed.

Lemma prefix_head_mismatch c lit d s :
  c <> d -> String.prefix (String c lit) (String d s) = false.
Proof. intros H. cbn [String.prefix]. by destruct (ascii_dec c d). Qed.

Lemma all_chars_app P s t : all_chars P (s +:+ t) = all_chars P s && all_chars P t.
Proof.
  induction s as [|c s IH]; [done|].
  rewrite app_cons. cbn [all_chars]. by rewrite IH, andb_assoc.
Qed.

Lemma skip_spaces_split s :
  exists ws, s = ws +:+ skip_spaces s /\ all_chars is_space ws = true.
Proof.
  induction s as [|c s (ws & IH & Hws)].
  - by exists "".
  - cbn [skip_spaces]. destruct (is_space c) eqn:Hc.
    + exists (String c ws). rewrite app_cons, <- IH. split; [done|].
      cbn [all_chars]. by rewrite Hc, Hws.
    + by exists "".
Qed.

Lemma skip_spaces_app ws c r :
  all_chars is_space ws = true -> is_space c = false ->
  skip_spaces (ws +:+ String c r) = String c r.
Proof.
  intros Hws Hc. induction ws as [|d ws IH].
  - rewrite app_empty_l. cbn [skip_spaces]. by rewrite Hc.
  - cbn [all_chars] in Hws. apply andb_true_iff in Hws as [Hd Hws].
    rewrite app_cons. cbn [skip_spaces]. rewrite Hd. by apply IH.
Qed.

Lemma span_unquoted_split s run rest :
  span_unquoted s = (run, rest) ->
  s = run +:+ rest /\ all_chars not_quote run = true.
Proof.
  revert run rest. induction s as [|c s IH]; intros run rest.
  - by intros [= <- <-].
  - cbn [span_unquoted]. destruct (is_quote c) eqn:Hc.
    + by intros [= <- <-].
    + destruct (span_unquoted s) as [run' rest'] eqn:Hs. intros [= <- <-].
      destruct (IH _ _ eq_refl) as [-> Hrun]. split; [done|].
      cbn [all_chars]. unfold not_quote at 1. by rewrite Hc, Hrun.
Qed.

Lemma span_unquoted_app run rest :
  all_chars not_quote run = true ->
  span_unquoted (run +:+ String "'" rest) = (run, String "'" rest).
Proof.
  intros Hrun. induction run as [|c run IH]; [done|].
  cbn [all_chars] in Hrun. apply andb_true_iff in Hrun as [Hc Hrun].
  rewrite app_cons. cbn [span_unquoted].
  unfold not_quote in Hc. apply negb_true_iff in Hc. rewrite Hc.
  by rewrite IH.
Qed.

Lemma group_unquoted_Some s run rest :
  group_unquoted s = Some (run, rest) ->
  s = run +:+ rest /\ run <> "" /\ all_chars not_quote run = true.
Proof.
  unfold group_unquoted. destruct (span_unquoted s) as [run' rest'] eqn:Hs.
  destruct run' as [|c run']; [done|]. intros [= <- <-].
  destruct (span_unquoted_split _ _ _ Hs) as [-> Hrun]. done.
Qed.

Lemma group_unquoted_app run rest :
  run <> "" -> all_chars not_quote run = true ->
  group_unquoted (run +:+ String "'" rest) = Some (run, String "'" rest).
Proof.
  intros Hne Hrun. unfold group_unquoted. rewrite span_unquoted_app by done.
  by destruct run.
Qed.

Lemma contains_prefix sub s : String.prefix sub s = true -> contains sub s = true.
Proof. intros H. destruct s; cbn [contains]; by rewrite H. Qed.

Lemma contains_app_r sub a t : contains sub t = true -> contains sub (a +:+ t) = true.
Proof.
  intros H. induction a as [|c a IH]; [done|].
  rewrite app_cons. cbn [contains]. rewrite IH. apply orb_true_r.
Qed.

Lemma contains_middle sub a b : contains sub (a +:+ sub +:+ b) = true.
Proof. apply contains_app_r, contains_prefix, prefix_app. Qed.

(** A text without the first character of [sub] does not contain [sub]. *)
Lemma contains_no_head c sub s :
  all_chars (not_char c) s = true -> contains (String c sub) s = false.
Proof.
  induction s as [|d s IH]; [done|].
  cbn [all_chars]. intros [Hd Hs]%andb_true_iff.
  cbn [contains]. rewrite prefix_head_mismatch, IH; [done|done|].
  unfold not_char in Hd. apply negb_true_iff, Ascii.eqb_neq in Hd. congruence.
Qed.

Lemma text_before_no_head c sub pre rest :
  all_chars (not_char c) pre = true ->
  text_before (String c sub) (pre +:+ String c sub +:+ rest) = pre.
Proof.
  induction pre as [|d pre IH].
  - intros _. rewrite app_empty_l, app_cons.
    pose proof (prefix_app (String c sub) rest) as Hp. rewrite app_cons in Hp.
    cbn [text_before]. by rewrite Hp.
  - cbn [all_chars]. intros [Hd Hs]%andb_true_iff.
    rewrite app_cons. cbn [text_before]. rewrite prefix_head_mismatch, IH; [done|done|].
    unfold not_char in Hd. apply negb_true_iff, Ascii.eqb_neq in Hd. congruence.
Qed.

(* ===================================================================== *)
(** * The pattern of the manifest *)
(* ===================================================================== *)

Lemma skip_spaces_quote ws rest :
  all_chars is_space ws = true -> skip_spaces (ws +:+ "'" +:+ rest) = "'" +:+ rest.
Proof. intros H. change ("'" +:+ rest) with (String "'" rest). by apply skip_spaces_app. Qed.

Lemma skip_spaces_dest ws rest :
  all_chars is_space ws = true -> skip_spaces (ws +:+ "dest:" +:+ rest) = "dest:" +:+ rest.
Proof.
  intros H. change ("dest:" +:+ rest) with (String "d" ("est:" +:+ rest)).
  by apply skip_spaces_app.
Qed.

Lemma group_unquoted_quote run rest :
  run <> "" -> all_chars not_quote run = true ->
  group_unquoted (run +:+ "'" +:+ rest) = Some (run, "'" +:+ rest).
Proof.
  intros. change ("'" +:+ rest) with (String "'" rest). by apply group_unquoted_app.
Qed.

Lemma group_unquoted_quote_comma run rest :
  run <> "" -> all_chars not_quote run = true ->
  group_unquoted (run +:+ "'," +:+ rest) = Some (run, "'," +:+ rest).
Proof.
  intros. change ("'," +:+ rest) with (String "'" ("," +:+ rest)).
  by apply group_unquoted_app.
Qed.

Lemma match_here_entry ws1 src ws2 ws3 dest post :
  all_chars is_space ws1 = true -> all_chars is_space ws2 = true ->
  all_chars is_space ws3 = true ->
  src <> "" -> all_chars not_quote src = true ->
  dest <> "" -> all_chars not_quote dest = true ->
  match_here (entry_text ws1 src ws2 ws3 dest post) = Some (src, dest).
Proof.
  intros H1 H2 H3 Hs Hsq Hd Hdq. unfold match_here, entry_text.
  rewrite literal_app. cbn [mbind option_bind].
  rewrite skip_spaces_quote, literal_app by done. cbn [mbind option_bind].
  rewrite group_unquoted_quote_comma by done. cbn [mbind option_bind].
  rewrite literal_app. cbn [mbind option_bind].
  rewrite skip_spaces_dest, literal_app by done. cbn [mbind option_bind].
  rewrite skip_spaces_quote, literal_app by done. cbn [mbind option_bind].
  rewrite group_unquoted_quote by done. cbn [mbind option_bind].
  by rewrite literal_app.
Qed.

Lemma match_here_Some s src dest :
  match_here s = Some (src, dest) ->
  exists ws1 ws2 ws3 post,
    s = entry_text ws1 src ws2 ws3 dest post
    /\ all_chars is_space ws1 = true /\ all_chars is_space ws2 = true
    /\ all_chars is_space ws3 = true
    /\ src <> "" /\ all_chars not_quote src = true
    /\ dest <> "" /\ all_chars not_quote dest = true.
Proof.
  unfold match_here.
  destruct (literal "src:" s) as [s1|] eqn:E1; [|done]. cbn [mbind option_bind].
  destruct (literal "'" (skip_spaces s1)) as [s2|] eqn:E2; [|done]. cbn [mbind option_bind].
  destruct (group_unquoted s2) as [[src' s3]|] eqn:E3; [|done]. cbn [mbind option_bind].
  destruct (literal "'," s3) as [s4|] eqn:E4; [|done]. cbn [mbind option_bind].
  destruct (literal "dest:" (skip_spaces s4)) as [s5|] eqn:E5; [|done]. cbn [mbind option_bind].
  destruct (literal "'" (skip_spaces s5)) as [s6|] eqn:E6; [|done]. cbn [mbind option_bind].
  destruct (group_unquoted s6) as [[dest' s7]|] eqn:E7; [|done]. cbn [mbind option_bind].
  destruct (literal "'" s7) as [post|] eqn:E8; [|done]. cbn [mbind option_bind].
  intros [= <- <-].
  apply literal_Some in E1, E2, E4, E5, E6, E8.
  apply group_unquoted_Some in E3 as (E3 & Hs & Hsq), E7 as (E7 & Hd & Hdq).
  destruct (skip_spaces_split s1) as (ws1 & W1 & H1).
  destruct (skip_spaces_split s4) as (ws2 & W2 & H2).
  destruct (skip_spaces_split s5) as (ws3 & W3 & H3).
  exists ws1, ws2, ws3, post. split_and!; try done.
  unfold entry_text. congruence.
Qed.

Lemma re_search_Some (line src dest : string) :
  re_search line = Some (src, dest) ->
  exists pre ws1 ws2 ws3 post,
    line = pre +:+ entry_text ws1 src ws2 ws3 dest post
    /\ all_chars is_space ws1 = true /\ all_chars is_space ws2 = true
    /\ all_chars is_space ws3 = true
    /\ src <> "" /\ all_chars not_quote src = true
    /\ dest <> "" /\ all_chars not_quote dest = true.
Proof.
  induction line as [|c line IH].
  - cbn [re_search]. destruct (match_here "") as [g|] eqn:E; [|done].
    intros [= ->]. apply match_here_Some in E as (ws1 & ws2 & ws3 & post & ? & ?).
    by exists "", ws1, ws2, ws3, post.
  - cbn [re_search]. destruct (match_here (String c line)) as [g|] eqn:E.
    + intros [= ->]. apply match_here_Some in E as (ws1 & ws2 & ws3 & post & ? & ?).
      by exists "", ws1, ws2, ws3, post.
    + intros (pre & ws1 & ws2 & ws3 & post & -> & ?)%IH.
      by exists (String c pre), ws1, ws2, ws3, post.
Qed.

(** What [re.search] returns of a line is in the line: the line is some
    text, then [src:], blanks, a quoted group, a comma, blanks, [dest:],
    blanks, a second quoted group, then some text; the two groups are the
    values returned, they are not empty and hold no quote. *)
Theorem re_search_sound (line src dest : string) :
  re_search line = Some (src, dest) ->
  exists pre ws1 ws2 ws3 post,
    line = pre +:+ entry_text ws1 src ws2 ws3 dest post
    /\ all_chars is_space ws1 = true /\ all_chars is_space ws2 = true
    /\ all_chars is_space ws3 = true
    /\ src <> "" /\ all_chars not_quote src = true
    /\ dest <> "" /\ all_chars not_quote dest = true.
Proof. apply re_search_Some. Qed.

Lemma re_search_sound_witness :
  exists pre ws1 ws2 ws3 post,
    "  { src: 'a/m.onnx', dest: 'public/m.onnx' },"%string
    = pre +:+ entry_text ws1 "a/m.onnx" ws2 ws3 "public/m.onnx" post
    /\ all_chars is_space ws1 = true /\ all_chars is_space ws2 = true
    /\ all_chars is_space ws3 = true
    /\ "a/m.onnx"%string <> ""%string /\ all_chars not_quote "a/m.onnx" = true
    /\ "public/m.onnx"%string <> ""%string /\ all_chars not_quote "public/m.onnx" = true.
Proof.
  apply (re_search_sound "  { src: 'a/m.onnx', dest: 'public/m.onnx' },").
  vm_compute. reflexivity.
Defined.

Lemma match_here_no_s c rest : c <> "s"%char -> match_here (String c rest) = None.
Proof.
  intros Hc. unfold match_here, literal.
  rewrite prefix_head_mismatch by congruence. done.
Qed.

Lemma re_search_entry pre ws1 src ws2 ws3 dest post :
  all_chars (not_char "s") pre = true ->
  all_chars is_space ws1 = true -> all_chars is_space ws2 = true ->
  all_chars is_space ws3 = true ->
  src <> "" -> all_chars not_quote src = true ->
  dest <> "" -> all_chars not_quote dest = true ->
  re_search (pre +:+ entry_text ws1 src ws2 ws3 dest post) = Some (src, dest).
Proof.
  intros Hpre H1 H2 H3 Hs Hsq Hd Hdq.
  assert (Hhere : forall t, match_here t = Some (src, dest) -> re_search t = Some (src, dest)).
  { intros t Ht. destruct t; cbn [re_search]; by rewrite Ht. }
  induction pre as [|c pre IH].
  - rewrite app_empty_l. by apply Hhere, match_here_entry.
  - cbn [all_chars] in Hpre. apply andb_true_iff in Hpre as [Hc Hpre].
    rewrite app_cons. cbn [re_search]. rewrite match_here_no_s.
    + by apply IH.
    + unfold not_char in Hc. by apply negb_true_iff, Ascii.eqb_neq in Hc.
Qed.

(** Every well-formed entry is picked up: a line made of a lead-in
    without the letter [s] and without a slash (blanks and a brace, say),
    then [src:], a quoted path, a comma, [dest:] and a quoted path, with
    blanks allowed after [src:], the comma and [dest:], adds the entry of
    its file name (the last segment of the [dest] path, every [.onnx]
    removed) for its [src] path, whatever follows on the line. *)
Theorem manifest_entry_of_well_formed_line (pre ws1 src ws2 ws3 dest post : string) :
  all_chars (not_char "s") pre = true ->
  all_chars (not_char "/") pre = true ->
  all_chars is_space ws1 = true -> all_chars is_space ws2 = true ->
  all_chars is_space ws3 = true ->
  src <> "" -> all_chars not_quote src = true ->
  dest <> "" -> all_chars not_quote dest = true ->
  forall mappings,
    scan_line mappings (pre +:+ entry_text ws1 src ws2 ws3 dest post)
    = <[replace ".onnx" "" (basename dest) := src]> mappings.
Proof.
  intros Hs Hsl H1 H2 H3 Hsrc Hsq Hdst Hdq mappings.
  unfold scan_line. rewrite re_search_entry by done.
  assert (Hc1 : contains "src:" (pre +:+ entry_text ws1 src ws2 ws3 dest post) = true).
  { apply contains_app_r, contains_prefix. unfold entry_text. apply prefix_app. }
  assert (Hc2 : contains "dest:" (pre +:+ entry_text ws1 src ws2 ws3 dest post) = true).
  { unfold entry_text. do 7 apply contains_app_r. apply contains_prefix, prefix_app. }
  assert (Hc3 : text_before "src:" (pre +:+ entry_text ws1 src ws2 ws3 dest post) = pre).
  { unfold entry_text. by apply (text_before_no_head "s" "rc:"). }
  rewrite Hc1, Hc2, Hc3, (contains_no_head "/" "/") by done. done.
Qed.

Lemma manifest_entry_of_well_formed_line_witness :
  scan_line ∅ ("  { " +:+ entry_text " " "a/m.onnx" " " " " "public/m.onnx" " },")
  = <[replace ".onnx" "" (basename "public/m.onnx") := "a/m.onnx"%string]> ∅.
Proof.
  apply (manifest_entry_of_well_formed_line "  { " " " "a/m.onnx" " " " " "public/m.onnx" " },");
    (reflexivity || discriminate).
Defined.

(* ===================================================================== *)
(** * More on the Mapping of the manifest *)
(* ===================================================================== *)

Lemma all_chars_impl (P Q : ascii -> bool) s :
  (forall c, P c = true -> Q c = true) -> all_chars P s = true -> all_chars Q s = true.
Proof.
  intros HPQ. induction s as [|c s IH]; [done|]. cbn [all_chars].
  intros [Hc Hs]%andb_true_iff. by rewrite (HPQ c Hc), IH.
Qed.

Lemma text_before_skip c sub a t :
  all_chars (not_char c) a = true ->
  text_before (String c sub) (a +:+ t) = a +:+ text_before (String c sub) t.
Proof.
  induction a as [|d a IH]; [done|]. cbn [all_chars].
  intros [Hd Ha]%andb_true_iff. rewrite !app_cons. cbn [text_before].
  rewrite prefix_head_mismatch, IH; [done|done|].
  unfold not_char in Hd. apply negb_true_iff, Ascii.eqb_neq in Hd. congruence.
Qed.

(** A commented-out line adds nothing: when [//] comes before any letter
    [s] on a line (a line that starts with [//] after blanks, say), the line
    leaves the Mapping as it is, even though an entry follows the [//]. *)
Theorem commented_line_ignored (lead rest : string) (mappings : gmap string string) :
  all_chars (not_char "s") lead = true ->
  scan_line mappings (lead +:+ "//" +:+ rest) = mappings.
Proof.
  intros Hlead. unfold scan_line.
  assert (Hcomment : contains "//" (text_before "src:" (lead +:+ "//" +:+ rest)) = true).
  { rewrite (text_before_skip "s" "rc:") by done.
    change ("//" +:+ rest) with (String "/" (String "/" rest)).
    cbn [text_before String.prefix].
    destruct (ascii_dec "s" "/") as [[=]|_].
    change (String "/" (String "/" (text_before "src:" rest)))
      with ("//" +:+ text_before "src:" rest).
    apply contains_middle. }
  rewrite Hcomment. cbn [negb]. by rewrite andb_false_r.
Qed.

Lemma commented_line_ignored_witness :
  scan_line {[ "m" := "old/m.onnx" ]}%string
    ("  " +:+ "//" +:+ " { src: 'new/m.onnx', dest: 'public/m.onnx' },")
  = {[ "m" := "old/m.onnx" ]}%string.
Proof.
  apply (commented_line_ignored "  " " { src: 'new/m.onnx', dest: 'public/m.onnx' },").
  reflexivity.
Defined.

Lemma basename_from_no_slash seen p :
  all_chars (not_char "/") seen = true ->
  all_chars (not_char "/") (basename_from seen p) = true.
Proof.
  revert seen. induction p as [|c p IH]; intros seen Hseen; [done|].
  cbn [basename_from]. destruct (Ascii.eqb c "/") eqn:Hc.
  - by apply IH.
  - apply IH. rewrite all_chars_app, Hseen. cbn [all_chars].
    unfold not_char. by rewrite Hc.
Qed.

Lemma replace_from_deletes P old skip s :
  all_chars P s = true -> all_chars P (replace_from old "" skip s) = true.
Proof.
  revert skip. induction s as [|c s IH]; intros skip; [done|].
  cbn [all_chars]. intros [Hc Hs]%andb_true_iff.
  cbn [replace_from]. destruct skip as [|k]; [|by apply IH].
  destruct (String.prefix old (String c s)).
  - rewrite app_empty_l. by apply IH.
  - cbn [all_chars]. by rewrite Hc, IH.
Qed.

(** The identifiers of the Mapping are file names: the key a line yields
    holds no slash, and the path it is mapped to is not empty and holds no
    quote. *)
Theorem manifest_entry_key_is_file_name (line k v : string) :
  manifest_entry line = Some (k, v) ->
  all_chars (not_char "/") k = true /\ v <> "" /\ all_chars not_quote v = true.
Proof.
  unfold manifest_entry. destruct (_ && _); [|done].
  destruct (re_search line) as [[src dest]|] eqn:Hre; [|done]. intros [= <- <-].
  apply re_search_Some in Hre as (_ & _ & _ & _ & _ & _ & _ & _ & _ & ? & ? & _).
  split; [|done]. by apply replace_from_deletes, basename_from_no_slash.
Qed.

Lemma manifest_entry_key_is_file_name_witness :
  all_chars (not_char "/") "m" = true
  /\ "a/m.onnx"%string <> ""%string /\ all_chars not_quote "a/m.onnx" = true.
Proof.
  apply (manifest_entry_key_is_file_name "  { src: 'a/m.onnx', dest: 'public/m.onnx' },").
  vm_compute. reflexivity.
Defined.

(** The Mapping has at most one entry per line of the manifest. *)
Theorem extract_mappings_size (lines : list string) :
  (size (extract_mappings lines) <= length lines)%nat.
Proof.
  induction lines as [|line lines IH] using rev_ind.
  - unfold extract_mappings. simpl. by rewrite map_size_empty.
  - rewrite extract_mappings_snoc, scan_line_entry, length_app. simpl.
    destruct (manifest_entry line) as [[k v]|]; [|lia].
    rewrite map_size_insert.
    destruct (extract_mappings lines !! k); simpl; lia.
Qed.

(** The Mapping, entry by entry: an identifier is mapped to a path
    exactly when some line of the manifest yields that identifier with that
    path and no later line yields the identifier again. *)
Theorem extract_mappings_lookup (lines : list string) (k v : string) :
  extract_mappings lines !! k = Some v <->
  exists before line after,
    lines = before ++ line :: after
    /\ manifest_entry line = Some (k, v)
    /\ Forall (fun l => forall v', manifest_entry l <> Some (k, v')) after.
Proof.
  split.
  - induction lines as [|line lines IH] using rev_ind.
    + unfold extract_mappings. simpl. by rewrite lookup_empty.
    + rewrite extract_mappings_snoc, scan_line_entry.
      destruct (manifest_entry line) as [[k' v']|] eqn:Hline.
      * destruct (decide (k' = k)) as [->|Hne].
        -- rewrite lookup_insert_eq. intros [= ->]. by exists lines, line, [].
        -- rewrite lookup_insert_ne by done.
           intros (before & l & after & -> & Hl & Hafter)%IH.
           exists before, l, (after ++ [line]). rewrite <- app_assoc. split; [done|].
           split; [done|]. apply Forall_app. split; [done|].
           apply Forall_singleton. intros v''. rewrite Hline. congruence.
      * intros (before & l & after & -> & Hl & Hafter)%IH.
        exists before, l, (after ++ [line]). rewrite <- app_assoc. split; [done|].
        split; [done|]. apply Forall_app. split; [done|].
        apply Forall_singleton. intros v''. by rewrite Hline.
  - intros (before & line & after & -> & Hline & Hafter).
    by apply extract_mappings_last_wins.
Qed.

(* ===================================================================== *)
(** * More on the reconciliation *)
(* ===================================================================== *)

Lemma verification_eq ui_ids (mappings : gmap string string) ex :
  verification ui_ids mappings ex =
  (filter (fun uid => mappings !! uid = None) ui_ids,
   omap (fun uid => match mappings !! uid with
                    | Some p => if ex p then None else Some (uid, p)
                    | None => None
                    end) ui_ids).
Proof. unfold verification. by rewrite verification_from. Qed.

(** The audit finds nothing to report exactly when every UI identifier
    has an entry in the Mapping whose path is present. *)
Theorem verification_clean (ui_ids : list string) (mappings : gmap string string)
    (exists_on_disk : string -> bool) :
  verification ui_ids mappings exists_on_disk = ([], []) <->
  forall uid, uid ∈ ui_ids ->
    exists p, mappings !! uid = Some p /\ exists_on_disk p = true.
Proof.
  rewrite verification_eq. split.
  - intros [= Hf Ho] uid Hin.
    destruct (mappings !! uid) as [p|] eqn:Hm.
    + exists p. split; [done|]. destruct (exists_on_disk p) eqn:Hex; [done|].
      assert (Hbad : (uid, p) ∈ omap (fun uid => match mappings !! uid with
                    | Some p => if exists_on_disk p then None else Some (uid, p)
                    | None => None
                    end) ui_ids).
      { apply list_elem_of_omap. exists uid. by rewrite Hm, Hex. }
      rewrite Ho in Hbad. by apply elem_of_nil in Hbad.
    + assert (Hbad : uid ∈ filter (fun uid => mappings !! uid = None) ui_ids).
      { by apply list_elem_of_filter. }
      rewrite Hf in Hbad. by apply elem_of_nil in Hbad.
  - intros Hall. induction ui_ids as [|uid rest IH]; [done|].
    destruct (Hall uid) as (p & Hm & Hex); [by left|].
    rewrite filter_cons, decide_False by congruence. cbn [omap list_omap].
    rewrite Hm, Hex.
    apply IH. intros u Hu. apply Hall. by right.
Qed.

(** The audit looks at the Mapping only under the UI identifiers, and at
    the disk only under the paths these are mapped to: entries of the
    manifest for other identifiers, and files no UI identifier is mapped
    to, change nothing in its result. *)
Theorem verification_local (ui_ids : list string) (m1 m2 : gmap string string)
    (ex1 ex2 : string -> bool) :
  (forall uid, uid ∈ ui_ids -> m1 !! uid = m2 !! uid) ->
  (forall uid p, uid ∈ ui_ids -> m1 !! uid = Some p -> ex1 p = ex2 p) ->
  verification ui_ids m1 ex1 = verification ui_ids m2 ex2.
Proof.
  intros Hm Hex. rewrite !verification_eq.
  induction ui_ids as [|uid rest IH]; [done|].
  assert (Hrest : (filter (fun uid => m1 !! uid = None) rest,
            omap (fun uid => match m1 !! uid with
                    | Some p => if ex1 p then None else Some (uid, p)
                    | None => None
                    end) rest)
          = (filter (fun uid => m2 !! uid = None) rest,
            omap (fun uid => match m2 !! uid with
                    | Some p => if ex2 p then None else Some (uid, p)
                    | None => None
                    end) rest)).
  { apply IH; intros; [apply Hm|eapply Hex]; try done; by right. }
  injection Hrest as Hf Ho.
  rewrite !filter_cons. cbn [omap list_omap]. rewrite <- (Hm uid) by by left.
  destruct (m1 !! uid) as [p|] eqn:Hp.
  - rewrite <- (Hex uid p) by (done || by left).
    rewrite !decide_False by done. by rewrite Hf, Ho.
  - rewrite !decide_True by done. by rewrite Hf, Ho.
Qed.

Lemma verification_local_witness :
  verification ["a"]%string {[ "a" := "/x/a.bin" ]}%string (fun p => String.eqb p "/x/a.bin")
  = verification ["a"]%string
      (<[ "zzz" := "/x/other.bin" ]> {[ "a" := "/x/a.bin" ]})%string
      (fun p => String.eqb p "/x/a.bin" || String.eqb p "/x/other.bin").
Proof.
  apply (verification_local ["a"]%string).
  - intros uid ->%list_elem_of_singleton. by vm_compute.
  - intros uid p ->%list_elem_of_singleton. vm_compute. by intros [= <-].
Defined.

(** The audit of two lists of identifiers, one after the other, is the
    audit of the first followed by the audit of the second; and no more
    is reported than there are identifiers. *)
Theorem verification_app (ids1 ids2 : list string) (mappings : gmap string string)
    (exists_on_disk : string -> bool) :
  verification (ids1 ++ ids2) mappings exists_on_disk
  = (fst (verification ids1 mappings exists_on_disk)
       ++ fst (verification ids2 mappings exists_on_disk),
     snd (verification ids1 mappings exists_on_disk)
       ++ snd (verification ids2 mappings exists_on_disk))
  /\ (length (fst (verification ids1 mappings exists_on_disk))
      + length (snd (verification ids1 mappings exists_on_disk)) <= length ids1)%nat.
Proof.
  split.
  - unfold verification at 1. rewrite fold_left_app.
    fold (verification ids1 mappings exists_on_disk).
    destruct (verification ids1 mappings exists_on_disk) as [a b].
    rewrite verification_from, verification_eq. done.
  - rewrite verification_eq. cbn [fst snd].
    induction ids1 as [|uid rest IH]; [done|].
    rewrite filter_cons. cbn [omap list_omap length].
    destruct (mappings !! uid) as [p|].
    + rewrite decide_False by done. destruct (exists_on_disk p); simpl; lia.
    + rewrite decide_True by done. simpl. lia.
Qed.

(* ===================================================================== *)
(** * The identifiers of the UI *)
(* ===================================================================== *)

Lemma length_app_string s t :
  String.length (s +:+ t) = (String.length s + String.length t)%nat.
Proof. induction s as [|c s IH]; [done|]. rewrite app_cons. simpl. by rewrite IH. Qed.

Lemma match_id_here_Some s uid n :
  match_id_here s = Some (uid, n) ->
  exists ws post,
    s = id_text ws uid post /\ all_chars is_space ws = true
    /\ uid <> "" /\ all_chars not_quote uid = true
    /\ n = (String.length s - String.length post)%nat.
Proof.
  unfold match_id_here.
  destruct (literal "id:" s) as [s1|] eqn:E1; [|done]. cbn [mbind option_bind].
  destruct (literal "'" (skip_spaces s1)) as [s2|] eqn:E2; [|done]. cbn [mbind option_bind].
  destruct (group_unquoted s2) as [[uid' s3]|] eqn:E3; [|done]. cbn [mbind option_bind].
  destruct (literal "'" s3) as [post|] eqn:E4; [|done]. cbn [mbind option_bind].
  intros [= <- <-].
  apply literal_Some in E1, E2, E4.
  apply group_unquoted_Some in E3 as (E3 & Hu & Huq).
  destruct (skip_spaces_split s1) as (ws & W & Hws).
  exists ws, post. split_and!; try done. unfold id_text. congruence.
Qed.

Lemma match_id_here_text ws uid post :
  all_chars is_space ws = true -> uid <> "" -> all_chars not_quote uid = true ->
  match_id_here (id_text ws uid post)
  = Some (uid, (String.length (id_text ws uid post) - String.length post)%nat).
Proof.
  intros Hws Hu Huq. unfold match_id_here.
  set (L := String.length (id_text ws uid post)). unfold id_text.
  rewrite literal_app. cbn [mbind option_bind].
  rewrite skip_spaces_quote, literal_app by done. cbn [mbind option_bind].
  rewrite group_unquoted_quote by done. cbn [mbind option_bind].
  by rewrite literal_app.
Qed.

Lemma findall_from_sound skip content uid :
  uid ∈ findall_from skip content ->
  exists pre ws post,
    content = pre +:+ id_text ws uid post /\ all_chars is_space ws = true
    /\ uid <> "" /\ all_chars not_quote uid = true.
Proof.
  revert skip. induction content as [|c rest IH]; intros skip.
  - simpl. by intros ?%elem_of_nil.
  - cbn [findall_from].
    assert (Hrest : forall k, uid ∈ findall_from k rest ->
      exists pre ws post,
        String c rest = pre +:+ id_text ws uid post /\ all_chars is_space ws = true
        /\ uid <> "" /\ all_chars not_quote uid = true).
    { intros k (pre & ws & post & -> & ?)%IH. by exists (String c pre), ws, post. }
    destruct skip as [|k]; [|by apply Hrest].
    destruct (match_id_here (String c rest)) as [[u n]|] eqn:Hm; [|by apply Hrest].
    intros [->|Hin]%elem_of_cons; [|by eapply Hrest].
    apply match_id_here_Some in Hm as (ws & post & -> & ? & ? & ? & _).
    by exists "", ws, post.
Qed.

(** Every identifier the script finds is in the UI source, quoted, after
    [id:] and blanks; it is not empty and holds no quote. *)
Theorem findall_ids_sound (content uid : string) :
  uid ∈ findall_ids content ->
  exists pre ws post,
    content = pre +:+ id_text ws uid post /\ all_chars is_space ws = true
    /\ uid <> "" /\ all_chars not_quote uid = true.
Proof. apply findall_from_sound. Qed.

Lemma findall_ids_sound_witness :
  exists pre ws post,
    "{ id: 'mirnet' }"%string = pre +:+ id_text ws "mirnet" post
    /\ all_chars is_space ws = true
    /\ "mirnet"%string <> ""%string /\ all_chars not_quote "mirnet" = true.
Proof.
  apply (findall_ids_sound "{ id: 'mirnet' }" "mirnet"). vm_compute. by left.
Defined.

Lemma findall_from_skip a t :
  findall_from (String.length a) (a +:+ t) = findall_from O t.
Proof. induction a as [|c a IH]; [done|]. rewrite app_cons. by cbn [String.length findall_from]. Qed.

Lemma match_id_here_no_i c rest : c <> "i"%char -> match_id_here (String c rest) = None.
Proof.
  intros Hc. unfold match_id_here, literal.
  rewrite prefix_head_mismatch by congruence. done.
Qed.

(** The search goes on right after a match: a text made of a lead-in
    without the letter [i], then [id:], blanks and a quoted identifier,
    gives that identifier first and then whatever the text after the
    closing quote gives.  So the identifiers come in the order of the
    source, each as often as it is written. *)
Theorem findall_ids_step (pre ws uid post : string) :
  all_chars (not_char "i") pre = true ->
  all_chars is_space ws = true -> uid <> "" -> all_chars not_quote uid = true ->
  findall_ids (pre +:+ id_text ws uid post) = uid :: findall_ids post.
Proof.
  intros Hpre Hws Hu Huq. unfold findall_ids.
  induction pre as [|c pre IH].
  - rewrite app_empty_l.
    pose proof (match_id_here_text ws uid post Hws Hu Huq) as Hm.
    assert (Hshape : id_text ws uid post
                     = String "i" (("d:" +:+ ws +:+ "'" +:+ uid +:+ "'") +:+ post)).
    { unfold id_text. by rewrite !app_assoc_string. }
    rewrite Hshape in Hm |- *. cbn [findall_from]. rewrite Hm. f_equal.
    cbn [String.length]. rewrite length_app_string.
    replace (S (String.length ("d:" +:+ ws +:+ "'" +:+ uid +:+ "'") + String.length post)
             - String.length post - 1)%nat
      with (String.length ("d:" +:+ ws +:+ "'" +:+ uid +:+ "'")) by lia.
    apply findall_from_skip.
  - cbn [all_chars] in Hpre. apply andb_true_iff in Hpre as [Hc Hpre].
    rewrite app_cons. cbn [findall_from]. rewrite match_id_here_no_i.
    + by apply IH.
    + unfold not_char in Hc. by apply negb_true_iff, Ascii.eqb_neq in Hc.
Qed.

Lemma findall_ids_step_witness :
  findall_ids ("  { " +:+ id_text " " "mirnet" ", name: 'MIRNet' }, { id: 'mirnet' }")
  = "mirnet"%string :: findall_ids ", name: 'MIRNet' }, { id: 'mirnet' }".
Proof.
  apply (findall_ids_step "  { " " " "mirnet"); (reflexivity || discriminate).
Defined.

(* ===================================================================== *)
(** * The lines of the manifest *)
(* ===================================================================== *)





(* ===================================================================== *)
(** * The dictionary in insertion order *)
(* ===================================================================== *)

Lemma dict_set_to_map k v (items : list (string * string)) :
  (list_to_map (dict_set k v items) : gmap string string) = <[k := v]> (list_to_map items).
Proof.
  induction items as [|[k' v'] rest IH]; [done|].
  cbn [dict_set]. destruct (String.eqb_spec k' k) as [->|Hne].
  - cbn [list_to_map foldr]. by rewrite insert_insert_eq.
  - cbn [list_to_map foldr]. cbn [list_to_map] in IH. rewrite IH.
    by apply insert_insert_ne.
Qed.

Lemma dict_set_keys k v items :
  (dict_set k v items).*1 = if decide (k ∈ items.*1) then items.*1 else items.*1 ++ [k].
Proof.
  induction items as [|[k' v'] rest IH].
  - destruct (decide (k ∈ ([] : list (string * string)).*1)) as [Hin|_]; [|done].
    by apply elem_of_nil in Hin.
  - cbn [dict_set]. destruct (String.eqb_spec k' k) as [->|Hne].
    + destruct (decide (k ∈ ((k, v') :: rest).*1)) as [_|Hnin]; [done|].
      exfalso. apply Hnin. by left.
    + rewrite !fmap_cons, IH. cbn [fst].
      destruct (decide (k ∈ rest.*1)) as [Hin|Hnin];
        destruct (decide (k ∈ k' :: rest.*1)) as [Hin'|Hnin']; try done.
      * exfalso. apply Hnin'. by right.
      * apply elem_of_cons in Hin' as [?|?]; congruence.
Qed.

Lemma dict_set_NoDup k v items : NoDup items.*1 -> NoDup (dict_set k v items).*1.
Proof.
  intros Hnd. rewrite dict_set_keys. case_decide; [done|].
  apply NoDup_app. split; [done|]. split; [|apply NoDup_singleton].
  intros x Hx ->%list_elem_of_singleton. done.
Qed.

Lemma mappings_items_snoc lines line :
  mappings_items (lines ++ [line]) = scan_line_items (mappings_items lines) line.
Proof. unfold mappings_items. by rewrite fold_left_app. Qed.

(** The dictionary as the script lists it and the Mapping agree: the
    listed pairs have distinct identifiers, looking an identifier up among
    them gives what the Mapping gives, and the count the script prints is
    the number of identifiers of the Mapping. *)
Theorem mappings_items_agree (lines : list string) :
  NoDup (mappings_items lines).*1
  /\ list_to_map (mappings_items lines) = extract_mappings lines
  /\ length (mappings_items lines) = size (extract_mappings lines).
Proof.
  assert (H : NoDup (mappings_items lines).*1
              /\ list_to_map (mappings_items lines) = extract_mappings lines).
  { induction lines as [|line lines [IH1 IH2]] using rev_ind; [split; [constructor|done]|].
    rewrite mappings_items_snoc, extract_mappings_snoc, scan_line_entry.
    unfold scan_line_items.
    destruct (manifest_entry line) as [[k v]|]; [|done].
    split; [by apply dict_set_NoDup|]. by rewrite dict_set_to_map, IH2. }
  destruct H as [Hnd Hmap]. split_and!; try done.
  rewrite <- Hmap, map_size_list_to_map by done. done.
Qed.

(* ===================================================================== *)
(** * The verdict of the audit *)
(* ===================================================================== *)

Lemma ok_copy_in_report mic : ok_copy ∈ report_missing_in_copy mic <-> mic = [].
Proof.
  destruct mic as [|m mic]; cbn [report_missing_in_copy].
  - split; [done|]. intros _. by left.
  - split; [|done]. intros [[=]|Hin]%elem_of_cons.
    apply list_elem_of_fmap in Hin as (x & [=] & _).
Qed.

Lemma ok_disk_in_report mdisk : ok_disk ∈ report_missing_on_disk mdisk <-> mdisk = [].
Proof.
  destruct mdisk as [|m mdisk]; cbn [report_missing_on_disk].
  - split; [done|]. intros _. by left.
  - split; [|done]. intros [[=]|Hin]%elem_of_cons.
    apply list_elem_of_fmap in Hin as ([u p] & [=] & _).
Qed.

Lemma ok_copy_not_disk mdisk : ok_copy ∉ report_missing_on_disk mdisk.
Proof.
  destruct mdisk as [|m mdisk]; cbn [report_missing_on_disk].
  - by intros [=]%list_elem_of_singleton.
  - intros [[=]|Hin]%elem_of_cons.
    apply list_elem_of_fmap in Hin as ([u p] & [=] & _).
Qed.

Lemma ok_disk_not_copy mic : ok_disk ∉ report_missing_in_copy mic.
Proof.
  destruct mic as [|m mic]; cbn [report_missing_in_copy].
  - by intros [=]%list_elem_of_singleton.
  - intros [[=]|Hin]%elem_of_cons.
    apply list_elem_of_fmap in Hin as (x & [=] & _).
Qed.

(** An [OK] line is printed by the last two sections only. *)
Lemma ok_line_in_output card manifest ex line :
  line = ok_copy \/ line = ok_disk ->
  line ∈ verify_model_chain card manifest ex <->
  line ∈ report_missing_in_copy
           (fst (verification (findall_ids card) (extract_mappings (readlines manifest)) ex))
  \/ line ∈ report_missing_on_disk
           (snd (verification (findall_ids card) (extract_mappings (readlines manifest)) ex)).
Proof.
  intros Hline. unfold verify_model_chain.
  destruct (verification _ _ _) as [mic mdisk]. cbn [fst snd].
  rewrite !elem_of_app, !list_elem_of_singleton, !list_elem_of_fmap.
  split; [|tauto].
  intros [Hl|[(x & Hl & _)|[Hl|[([u p] & Hl & _)|[Hl|H]]]]]; [..|done];
    exfalso; destruct Hline as [-> | ->]; discriminate Hl.
Qed.

(** The verdict can be trusted.  The script prints "[OK] All UI IDs have a
    corresponding copy entry." exactly when every identifier found in the
    UI source has an entry in the Mapping read from the manifest; and it
    prints "[OK] All active models exist on disk." exactly when, for every
    identifier found in the UI source that has an entry, the mapped path
    is present.  (Identifiers without an entry do not stand in the way of
    the second line.) *)
Theorem verdict_is_truthful (card manifest : string) (exists_on_disk : string -> bool) :
  let ui_ids := findall_ids card in
  let mappings := extract_mappings (readlines manifest) in
  let out := verify_model_chain card manifest exists_on_disk in
  (ok_copy ∈ out <-> forall uid, uid ∈ ui_ids -> is_Some (mappings !! uid))
  /\ (ok_disk ∈ out <->
      forall uid p, uid ∈ ui_ids -> mappings !! uid = Some p -> exists_on_disk p = true).
Proof.
  cbv zeta. rewrite !ok_line_in_output by auto.
  rewrite verification_eq. cbn [fst snd]. split.
  - rewrite ok_copy_in_report. split.
    + intros [Hf|Hd]; [|by apply ok_copy_not_disk in Hd].
      intros uid Hin. destruct (extract_mappings (readlines manifest) !! uid) eqn:Hm; [done|].
      assert (Hbad : uid ∈ filter
                (fun uid => extract_mappings (readlines manifest) !! uid = None)
                (findall_ids card)) by (by apply list_elem_of_filter).
      rewrite Hf in Hbad. by apply elem_of_nil in Hbad.
    + intros Hall. left. induction (findall_ids card) as [|uid rest IH]; [done|].
      rewrite filter_cons, decide_False.
      * apply IH. intros u Hu. apply Hall. by right.
      * destruct (Hall uid) as [p Hp]; [by left|]. by rewrite Hp.
  - rewrite ok_disk_in_report. split.
    + intros [Hc|Ho]; [by apply ok_disk_not_copy in Hc|].
      intros uid p Hin Hm. destruct (exists_on_disk p) eqn:Hex; [done|].
      assert (Hbad : (uid, p) ∈ omap (fun uid =>
                match extract_mappings (readlines manifest) !! uid with
                | Some p => if exists_on_disk p then None else Some (uid, p)
                | None => None
                end) (findall_ids card)).
      { apply list_elem_of_omap. exists uid. by rewrite Hm, Hex. }
      rewrite Ho in Hbad. by apply elem_of_nil in Hbad.
    + intros Hall. right. induction (findall_ids card) as [|uid rest IH]; [done|].
      cbn [omap list_omap].
      destruct (extract_mappings (readlines manifest) !! uid) as [p|] eqn:Hm.
      * rewrite (Hall uid p) by (done || by left).
        apply IH. intros u q Hu. apply Hall. by right.
      * apply IH. intros u q Hu. apply Hall. by right.
Qed.

(* ===================================================================== *)
(** * The cleanup of the restoration directory *)
(* ===================================================================== *)

Lemma used_names_onnx f : f ∈ used_names -> endswith f ".onnx" = true.
Proof.
  intros Hin. apply list_elem_of_In in Hin. simpl in Hin.
  repeat (destruct Hin as [<-|Hin]; [reflexivity|]). done.
Qed.

Lemma cleanup_entry_present dir out f e :
  dir !! f = Some e ->
  exists dir' out',
    cleanup_entry (dir, out) f = Some (dir', out')
    /\ dir' !! f = survives f (Some e)
    /\ forall g, g <> f -> dir' !! g = dir !! g.
Proof.
  intros Hf. unfold cleanup_entry, os_path_isdir, os_remove, shutil_rmtree, survives.
  rewrite Hf. destruct e.
  - destruct (endswith f ".onnx") eqn:Hend.
    + destruct (bool_decide (f ∉ used_names)) eqn:Hused.
      * apply bool_decide_eq_true in Hused. cbn [mbind option_bind].
        eexists _, _. split; [done|]. rewrite bool_decide_eq_false_2 by done.
        split; [apply lookup_delete_eq|]. intros g Hg. by apply lookup_delete_ne.
      * apply bool_decide_eq_false in Hused.
        assert (Hin : f ∈ used_names) by (by destruct (decide (f ∈ used_names))).
        eexists _, _. split; [done|]. rewrite bool_decide_eq_true_2 by done. done.
    + cbn [mbind option_bind]. eexists _, _. split; [done|].
      rewrite bool_decide_eq_false_2.
      * split; [apply lookup_delete_eq|]. intros g Hg. by apply lookup_delete_ne.
      * intros Hin%used_names_onnx. congruence.
  - eexists _, _. split; [done|].
    split; [apply lookup_delete_eq|]. intros g Hg. by apply lookup_delete_ne.
Qed.

Lemma cleanup_loop_listed listing : forall dir out,
  NoDup listing ->
  (forall f, f ∈ listing -> is_Some (dir !! f)) ->
  exists dir' out',
    cleanup_loop listing (dir, out) = Some (dir', out')
    /\ forall g, dir' !! g = if decide (g ∈ listing) then survives g (dir !! g) else dir !! g.
Proof.
  induction listing as [|f rest IH]; intros dir out Hnd Hall.
  - exists dir, out. split; [done|]. intros g. rewrite decide_False; [done|].
    by intros ?%elem_of_nil.
  - apply NoDup_cons in Hnd as [Hf Hnd].
    destruct (Hall f) as [e He]; [by left|].
    destruct (cleanup_entry_present dir out f e He) as (d1 & o1 & Hstep & Hd1f & Hd1).
    destruct (IH d1 o1 Hnd) as (d2 & o2 & Hloop & Hd2).
    { intros g Hg. rewrite Hd1; [apply Hall; by right|]. by intros ->. }
    exists d2, o2. cbn [cleanup_loop]. rewrite Hstep. cbn [mbind option_bind].
    split; [done|]. intros g. rewrite Hd2.
    destruct (decide (g = f)) as [->|Hne].
    + rewrite decide_False by done. rewrite decide_True by (by left).
      by rewrite Hd1f, He.
    + rewrite Hd1 by done.
      destruct (decide (g ∈ rest)) as [Hin|Hnin].
      * rewrite decide_True; [done|by right].
      * rewrite decide_False; [done|]. intros [?|?]%elem_of_cons; done.
Qed.

Lemma standardize_main_leaves_used_models_aux (listing : list string)
    (dir : gmap string dir_entry) :
  NoDup listing ->
  (forall f, f ∈ listing <-> is_Some (dir !! f)) ->
  exists dir' out,
    standardize_main listing dir = Some (dir', out)
    /\ forall f, dir' !! f = survives f (dir !! f).
Proof.
  intros Hnd Hall. unfold standardize_main.
  destruct (cleanup_loop_listed listing dir
              ["Maintaining " +:+ pretty (length used_names) +:+ " standardized models..."]
              Hnd) as (dir' & out & Hloop & Hdir').
  { intros f. apply Hall. }
  exists dir', out. split; [done|]. intros f. rewrite Hdir'.
  destruct (decide (f ∈ listing)) as [|Hnin]; [done|].
  destruct (dir !! f) as [e|] eqn:He; [|done].
  exfalso. apply Hnin, Hall. by rewrite He.
Qed.


Lemma sample_listing_NoDup : NoDup sample_listing.
Proof. apply (bool_decide_eq_true_1 (NoDup sample_listing)). vm_compute. reflexivity. Qed.

Lemma sample_listing_lists f : f ∈ sample_listing <-> is_Some (sample_dir !! f).
Proof.
  split.
  - intros Hf. apply list_elem_of_In in Hf. simpl in Hf.
    destruct Hf as [<-|[<-|[<-|[<-|[<-|[]]]]]]; vm_compute; eauto.
  - unfold sample_dir. rewrite !lookup_insert_is_Some, lookup_empty, is_Some_alt.
    intros [<-|[_ [<-|[_ [<-|[_ [<-|[_ [<-|[_ []]]]]]]]]]];
      apply list_elem_of_In; simpl; auto 10.
Qed.


Lemma cleanup_loop_nothing_to_do listing dir out :
  (forall f, f ∈ listing -> dir !! f = Some RegularFile /\ f ∈ used_names) ->
  cleanup_loop listing (dir, out) = Some (dir, out).
Proof.
  induction listing as [|f rest IH]; intros Hall; [done|].
  destruct (Hall f) as [Hf Hused]; [by left|].
  cbn [cleanup_loop]. unfold cleanup_entry, os_path_isdir.
  rewrite Hf, (used_names_onnx f Hused), bool_decide_eq_false_2 by (by intros ?).
  cbn [mbind option_bind]. apply IH. intros g Hg. apply Hall. by right.
Qed.

(** A second run has nothing to do: after a run of the script, a run on
    the directory it left removes nothing and prints its first line
    only. *)
Theorem standardize_main_twice (listing listing' : list string)
    (dir dir' : gmap string dir_entry) (out : list string) :
  NoDup listing ->
  (forall f, f ∈ listing <-> is_Some (dir !! f)) ->
  (forall f, f ∈ listing' -> is_Some (dir' !! f)) ->
  standardize_main listing dir = Some (dir', out) ->
  standardize_main listing' dir'
  = Some (dir', ["Maintaining " +:+ pretty (length used_names) +:+ " standardized models..."]).
Proof.
  intros Hnd Hall Hall' Hrun.
  destruct (standardize_main_leaves_used_models_aux listing dir Hnd Hall)
    as (d & o & Hrun' & Hd).
  rewrite Hrun in Hrun'. injection Hrun' as <- <-.
  apply cleanup_loop_nothing_to_do. intros f Hf.
  destruct (Hall' f Hf) as [e He]. rewrite Hd in He |- *.
  unfold survives in *. destruct (dir !! f) as [[]|]; try done.
  destruct (bool_decide (f ∈ used_names)) eqn:Hu; [|done].
  by apply bool_decide_eq_true in Hu.
Qed.

Lemma standardize_main_twice_witness :
  standardize_main ["mprnet-deraining-fp16.onnx"; "mirnet_v2-lowlight-fp16.onnx"]%string
    (<["mirnet_v2-lowlight-fp16.onnx"%string := RegularFile]>
       (<["mprnet-deraining-fp16.onnx"%string := RegularFile]> ∅))
  = Some (<["mirnet_v2-lowlight-fp16.onnx"%string := RegularFile]>
            (<["mprnet-deraining-fp16.onnx"%string := RegularFile]> ∅),
          ["Maintaining " +:+ pretty (length used_names) +:+ " standardized models..."]).
Proof.
  apply (standardize_main_twice sample_listing _ sample_dir _
           [ "Maintaining 7 standardized models...";
             "Cleaning up directory: tmp";
             "Removing junk/old model: mirnet_v2-lowlight-fp32.onnx";
             "Cleaning up non-onnx artifact: weights.bin" ]%string).
  - apply sample_listing_NoDup.
  - apply sample_listing_lists.
  - intros f Hf. apply list_elem_of_In in Hf. simpl in Hf.
    destruct Hf as [<-|[<-|[]]]; vm_compute; eauto.
  - reflexivity.
Defined.

(** The cleanup undoes the conversion batch: none of the FP32 files the
    batch of [restore_fp32_onnx.py] writes is in [used_names], so after a
    run of the cleanup in the directory none of them is left, while each
    FP16 input of the batch that was a regular file is still there. *)
Theorem cleanup_removes_converted_models (listing : list string)
    (dir dir' : gmap string dir_entry) (out : list string) :
  NoDup listing ->
  (forall f, f ∈ listing <-> is_Some (dir !! f)) ->
  standardize_main listing dir = Some (dir', out) ->
  forall inp outp, (inp, outp) ∈ models ->
    dir' !! outp = None
    /\ (dir !! inp = Some RegularFile -> dir' !! inp = Some RegularFile).
Proof.
  intros Hnd Hall Hrun inp outp Hin.
  destruct (standardize_main_leaves_used_models_aux listing dir Hnd Hall)
    as (d & o & Hrun' & Hd).
  rewrite Hrun in Hrun'. injection Hrun' as <- <-.
  rewrite !Hd. unfold survives.
  apply list_elem_of_In in Hin. simpl in Hin.
  destruct Hin as [[= <- <-]|[[= <- <-]|[[= <- <-]|[[= <- <-]|[]]]]];
    (split; [by destruct (dir !! _) as [[]|]|by intros ->]).
Qed.

Lemma cleanup_removes_converted_models_witness :
  (<["mirnet_v2-lowlight-fp16.onnx"%string := RegularFile]>
     (<["mprnet-deraining-fp16.onnx"%string := RegularFile]> ∅)
     : gmap string dir_entry) !! "mirnet_v2-lowlight-fp32.onnx"%string = None
  /\ (<["mirnet_v2-lowlight-fp16.onnx"%string := RegularFile]>
        (<["mprnet-deraining-fp16.onnx"%string := RegularFile]> ∅)
        : gmap string dir_entry) !! "mirnet_v2-lowlight-fp16.onnx"%string
     = Some RegularFile.
Proof.
  destruct (cleanup_removes_converted_models sample_listing sample_dir
              (<["mirnet_v2-lowlight-fp16.onnx"%string := RegularFile]>
                 (<["mprnet-deraining-fp16.onnx"%string := RegularFile]> ∅))
              [ "Maintaining 7 standardized models...";
                "Cleaning up directory: tmp";
                "Removing junk/old model: mirnet_v2-lowlight-fp32.onnx";
                "Cleaning up non-onnx artifact: weights.bin" ]%string
              sample_listing_NoDup sample_listing_lists eq_refl
              "mirnet_v2-lowlight-fp16.onnx" "mirnet_v2-lowlight-fp32.onnx")
    as [Hout Hin].
  - apply list_elem_of_In. simpl. auto.
  - split; [exact Hout|]. apply Hin. reflexivity.
Defined.

Lemma os_path_join_inj a b : os_path_join base_dir a = os_path_join base_dir b -> a = b.
Proof.
  unfold os_path_join. intros H.
  apply (inj (String.app base_dir)) in H. by apply (inj (String.app "/")) in H.
Qed.

(** The batch does its job: when a run over a list whose output names are
    distinct and differ from all its input names ends normally, each entry
    whose input held a model at the start now has, at its output path,
    that model with its graph rewritten and its other fields as they
    were. *)
Theorem batch_converts_each_model (pairs : list (string * string)) (w w' : world) :
  main_loop pairs w = (w', Ok tt) ->
  NoDup pairs.*2 ->
  (forall i o i' o', (i, o) ∈ pairs -> (i', o') ∈ pairs -> i <> o') ->
  forall inp outp m,
    (inp, outp) ∈ pairs ->
    fs w !! os_path_join base_dir inp = Some (ModelFile m) ->
    exists g',
      convert_graph (graph m) = Ok g'
      /\ fs w' !! os_path_join base_dir outp
         = Some (ModelFile (mkModel (ir_version m) (producer_name m) g')).
Proof.
  revert w. induction pairs as [|[i0 o0] rest IH]; intros w Hrun Hnd Hdisj inp outp m Hin Hm.
  - by apply elem_of_nil in Hin.
  - rewrite fmap_cons in Hnd. apply NoDup_cons in Hnd as [Ho0 Hnd]. cbn [snd] in Ho0.
    assert (Hdisj' : forall i o i' o', (i, o) ∈ rest -> (i', o') ∈ rest -> i <> o').
    { intros i o i' o' H1 H2. apply (Hdisj i o i' o'); by right. }
    assert (Hkeep : forall w1 r, main_loop rest w1 = (w', r) ->
              fs w' !! os_path_join base_dir o0 = fs w1 !! os_path_join base_dir o0).
    { intros w1 r Hrest. apply (main_loop_fs_frame rest w1 w' r); [done|].
      intros i o Hio Heq%os_path_join_inj. subst o.
      apply Ho0. apply list_elem_of_fmap. by exists (i, o0). }
    cbn [main_loop] in Hrun.
    destruct (os_path_exists w (os_path_join base_dir i0)) eqn:Hex.
    + destruct (convert_fp16_to_fp32 _ _ w) as [w1 [ok|e]] eqn:Hconv; [|done].
      pose proof (conversion_outcome_cases _ _ _ _ _ Hconv) as Hout.
      apply elem_of_cons in Hin as [[= -> ->]|Hin].
      * destruct ok.
        -- destruct Hout as (m' & g' & Hm' & Hg & _ & Hfs).
           assert (m' = m) as -> by congruence.
           exists g'. split; [done|]. rewrite (Hkeep w1 (Ok tt) Hrun), Hfs.
           apply lookup_insert_eq.
        -- destruct Hout as [Hno _]. by destruct (Hno m).
      * apply (IH w1 Hrun Hnd Hdisj' inp outp m Hin).
        rewrite (convert_fp16_to_fp32_fs_frame _ _ _ _ _ _ Hconv); [done|].
        intros Heq%os_path_join_inj. apply (Hdisj inp outp i0 o0); [by right|by left|done].
    + apply elem_of_cons in Hin as [[= -> ->]|Hin].
      * apply bool_decide_eq_false in Hex. destruct Hex. by rewrite Hm.
      * by apply (IH _ Hrun Hnd Hdisj' inp outp m Hin).
Qed.

Lemma batch_converts_each_model_witness :
  exists g',
    convert_graph (graph (model_of sample_graph)) = Ok g'
    /\ fs (fst (main world_unreadable_first))
         !! os_path_join base_dir "mirnet_v2-lowlight-fp32.onnx"
       = Some (ModelFile (mkModel (ir_version (model_of sample_graph))
                                  (producer_name (model_of sample_graph)) g')).
Proof.
  apply (batch_converts_each_model models world_unreadable_first
           (fst (main world_unreadable_first))
           ltac:(reflexivity)
           ltac:(apply (bool_decide_eq_true_1 (NoDup models.*2)); vm_compute; reflexivity)
           ltac:(intros i o i' o' H1 H2 ->;
                 apply list_elem_of_In in H1, H2; simpl in H1, H2;
                 repeat (destruct H1 as [[= <- <-]|H1]);
                 repeat (destruct H2 as [[=]|H2]); done)
           "mirnet_v2-lowlight-fp16.onnx" "mirnet_v2-lowlight-fp32.onnx").
  - apply list_elem_of_In. simpl. auto.
  - reflexivity.
Defined.

Lemma key_of_plain_name_witness :
  replace ".onnx" "" ("mirnet_v2-lowlight-fp16" +:+ ".onnx") = "mirnet_v2-lowlight-fp16"%string
  /\ strip_suffix ".onnx" ("mirnet_v2-lowlight-fp16" +:+ ".onnx")
     = "mirnet_v2-lowlight-fp16"%string.
Proof. apply (key_of_plain_name "mirnet_v2-lowlight-fp16"). reflexivity. Defined.

Lemma extract_mappings_lookup_witness :
  extract_mappings manifest_two_entries !! "m"%string
  = Some "local_models/restoration/new/m.onnx"%string.
Proof.
  apply (proj2 (extract_mappings_lookup manifest_two_entries "m"
                  "local_models/restoration/new/m.onnx")).
  exists (take 2 manifest_two_entries),
    "  { src: 'local_models/restoration/new/m.onnx', dest: 'public/models/restoration/m.onnx' },"%string,
    [].
  split_and!; [reflexivity|vm_compute; reflexivity|constructor].
Defined.

Lemma verification_clean_witness :
  verification ["a"]%string {[ "a" := "/x/a.bin" ]}%string (fun p => String.eqb p "/x/a.bin")
  = ([], []).
Proof.
  apply (proj2 (verification_clean ["a"]%string {[ "a" := "/x/a.bin" ]}%string
                  (fun p => String.eqb p "/x/a.bin"))).
  intros uid ->%list_elem_of_singleton. exists "/x/a.bin"%string. split; reflexivity.
Defined.

Lemma verdict_is_truthful_witness :
  ok_copy ∈ verify_model_chain "{ id: 'a' }" "{ src: '/x/a.bin', dest: 'p/a.onnx' },"
              (fun _ => true).
Proof.
  apply (proj2 (proj1 (verdict_is_truthful "{ id: 'a' }"
                         "{ src: '/x/a.bin', dest: 'p/a.onnx' }," (fun _ => true)))).
  intros uid Hin.
  assert (Hids : findall_ids "{ id: 'a' }" = ["a"%string]) by reflexivity.
  rewrite Hids in Hin. apply list_elem_of_singleton in Hin as ->.
  exists "/x/a.bin"%string. reflexivity.
Defined.
